(** * loadcurve-genius: trade settlement and load-curve analysis

    A shallow embedding of the two edge functions of the repository
    (the [execute-trade] handler and the [analyze-load-curve] handler with
    its helpers [parseCSV] and [analyzeLoadCurve]) together with the part of
    the SQL schema they write to, and the properties of the specification
    that concern them.  After them come the parts of the client that call
    the trade handler or read its tables ([TradeDialog], [Marketplace],
    [TransactionHistory], [PortfolioCard]) and the handler that forwards the
    file to the model, with further properties of the code.

    Numbers.  A JavaScript number is modelled by [number]: an exact rational,
    or one of the three special values Infinity, -Infinity and NaN.  The
    rounding of binary64 arithmetic and the sign of zero are not modelled;
    finite results are kept in lowest terms so that equal values are equal
    terms.

    Store.  The tables [user_assets] and [transactions] are lists of rows;
    the calls of the store client enforce the constraints the migration
    declares on them (foreign keys, NOT NULL, CHECK, UNIQUE), and a record of
    flags says which calls fail for a reason outside the data. *)

From Stdlib Require Import List String Ascii Bool Arith ZArith QArith Qreduction Lia Lqa.
From Stdlib Require Import Permutation.
Import ListNotations.

Local Open Scope string_scope.

(** ** JavaScript numbers *)

Module Num.

Inductive number : Type :=
| Fin (q : Q)
| PInf
| NInf
| NaN.

Definition Qltb (a b : Q) : bool := negb (Qle_bool b a).

Definition of_Z (z : Z) : number := Fin (inject_Z z).

Definition zero : number := Fin 0.

Definition is_finite (x : number) : bool :=
  match x with Fin _ => true | _ => false end.

(** [x + y] *)
Definition add (x y : number) : number :=
  match x, y with
  | NaN, _ | _, NaN => NaN
  | Fin a, Fin b => Fin (Qred (a + b))
  | PInf, NInf | NInf, PInf => NaN
  | PInf, _ | _, PInf => PInf
  | NInf, _ | _, NInf => NInf
  end.

(** [x - y] *)
Definition sub (x y : number) : number :=
  match x, y with
  | NaN, _ | _, NaN => NaN
  | Fin a, Fin b => Fin (Qred (a - b))
  | PInf, PInf | NInf, NInf => NaN
  | PInf, _ | _, NInf => PInf
  | NInf, _ | _, PInf => NInf
  end.

(** Infinity times a finite factor: the sign of the factor decides, and a
    zero factor gives NaN. *)
Definition scale_inf (positive : bool) (a : Q) : number :=
  match (0 ?= a)%Q with
  | Eq => NaN
  | Lt => if positive then PInf else NInf
  | Gt => if positive then NInf else PInf
  end.

(** [x * y] *)
Definition mul (x y : number) : number :=
  match x, y with
  | NaN, _ | _, NaN => NaN
  | Fin a, Fin b => Fin (Qred (a * b))
  | PInf, Fin a | Fin a, PInf => scale_inf true a
  | NInf, Fin a | Fin a, NInf => scale_inf false a
  | PInf, PInf | NInf, NInf => PInf
  | PInf, NInf | NInf, PInf => NInf
  end.

(** [x / y]; a finite value divided by zero is Infinity, -Infinity or NaN
    according to the sign of the dividend. *)
Definition div (x y : number) : number :=
  match x, y with
  | NaN, _ | _, NaN => NaN
  | Fin a, Fin b =>
      if Qeq_bool b 0
      then match (0 ?= a)%Q with Lt => PInf | Gt => NInf | Eq => NaN end
      else Fin (Qred (a / b))
  | Fin _, (PInf | NInf) => Fin 0
  | (PInf | NInf), (PInf | NInf) => NaN
  | PInf, Fin b => if Qltb b 0 then NInf else PInf
  | NInf, Fin b => if Qltb b 0 then PInf else NInf
  end.

(** [x < y] *)
Definition ltb (x y : number) : bool :=
  match x, y with
  | NaN, _ | _, NaN => false
  | Fin a, Fin b => Qltb a b
  | NInf, (Fin _ | PInf) => true
  | Fin _, PInf => true
  | _, _ => false
  end.

(** [x <= y] *)
Definition leb (x y : number) : bool :=
  match x, y with
  | NaN, _ | _, NaN => false
  | Fin a, Fin b => Qle_bool a b
  | NInf, _ => true
  | _, PInf => true
  | _, _ => false
  end.

(** [x > y] and [x >= y] *)
Definition gtb (x y : number) : bool := ltb y x.
Definition geb (x y : number) : bool := leb y x.

(** [x === y] on numbers: NaN is different from itself. *)
Definition eqb (x y : number) : bool :=
  match x, y with
  | Fin a, Fin b => Qeq_bool a b
  | PInf, PInf | NInf, NInf => true
  | _, _ => false
  end.

(** Truthiness of a number: [0] and [NaN] are falsy. *)
Definition truthy (x : number) : bool :=
  match x with
  | Fin a => negb (Qeq_bool a 0)
  | NaN => false
  | _ => true
  end.

(** [Math.max(...xs)]: -Infinity for no argument, NaN as soon as one
    argument is NaN. *)
Definition max2 (x y : number) : number :=
  match x, y with
  | NaN, _ | _, NaN => NaN
  | _, _ => if ltb x y then y else x
  end.

Definition math_max (xs : list number) : number := fold_left max2 xs NInf.

Definition is_nan (x : number) : bool :=
  match x with NaN => true | _ => false end.

(** Values that denote the same number. *)
Definition equiv (x y : number) : Prop :=
  match x, y with
  | Fin a, Fin b => (a == b)%Q
  | PInf, PInf | NInf, NInf | NaN, NaN => True
  | _, _ => False
  end.

(** A finite value is canonical when its fraction is in lowest terms. *)
Definition canonical (x : number) : Prop :=
  match x with
  | Fin a => Qred a = a
  | _ => True
  end.

End Num.

Import Num.

Declare Scope num_scope.
Delimit Scope num_scope with num.
Bind Scope num_scope with number.
Infix "+" := add : num_scope.
Infix "-" := sub : num_scope.
Infix "*" := mul : num_scope.
Infix "/" := div : num_scope.
Infix "<?" := ltb : num_scope.
Infix "<=?" := leb : num_scope.
Infix ">?" := gtb (at level 70) : num_scope.
Infix ">=?" := geb (at level 70) : num_scope.
Infix "===" := eqb (at level 70) : num_scope.

(** ** The ledger: tables [user_assets] and [transactions] of the schema,
       and the [execute-trade] handler *)

Module Ledger.

Definition uuid := string.

(** A row of [public.user_assets]. *)
Record OwnershipRow : Type := {
  user_id : uuid;
  asset_id : uuid;
  ownership_percent : number
}.

(** A row of [public.transactions]. *)
Record TransactionRow : Type := {
  tx_asset_id : uuid;
  buyer_id : option uuid;
  seller_id : option uuid;
  percent_traded : number;
  price_per_percent : number;
  total_price : number;
  transaction_type : string
}.

(** The tables the handler touches; [assets] and [profiles] hold the
    primary keys the foreign keys refer to. *)
Record Database : Type := {
  assets : list uuid;
  profiles : list uuid;
  user_assets : list OwnershipRow;
  transactions : list TransactionRow
}.

Definition with_user_assets (db : Database) (rows : list OwnershipRow) : Database :=
  {| assets := assets db; profiles := profiles db;
     user_assets := rows; transactions := transactions db |}.

Definition with_transactions (db : Database) (rows : list TransactionRow) : Database :=
  {| assets := assets db; profiles := profiles db;
     user_assets := user_assets db; transactions := rows |}.

Definition known (id : uuid) (keys : list uuid) : bool :=
  existsb (String.eqb id) keys.

(** [.eq('user_id', u).eq('asset_id', a)] *)
Definition matches (u a : uuid) (r : OwnershipRow) : bool :=
  String.eqb (user_id r) u && String.eqb (asset_id r) a.

(** [CHECK (ownership_percent > 0 AND ownership_percent <= 100)], and the
    same check on [percent_traded]; a value that is not finite reaches the
    store as [null] and violates NOT NULL. *)
Definition check_percent (p : number) : bool :=
  (p >? zero)%num && (p <=? of_Z 100)%num.

(** [CHECK (transaction_type IN ('buy', 'sell'))] *)
Definition check_type (t : string) : bool :=
  String.eqb t "buy" || String.eqb t "sell".

Definition fk_profile (o : option uuid) (db : Database) : bool :=
  match o with
  | None => true
  | Some u => known u (profiles db)
  end.

(** Failures of the store that do not depend on the data (the service
    cannot be reached, the statement times out): one flag per call the
    handler makes. *)
Record Faults : Type := {
  fetch_fails : bool;
  write_fails : bool;
  record_fails : bool
}.

Definition no_faults : Faults :=
  {| fetch_fails := false; write_fails := false; record_fails := false |}.

(** *** Calls of the store client

    Every call answers with its data and an error flag, and leaves the new
    state of the tables. *)

(** [select('ownership_percent').eq(..).eq(..).maybeSingle()]: no row gives
    no data, one row gives it, several rows are an error. *)
Definition select_ownership (f : Faults) (u a : uuid) (db : Database)
  : option OwnershipRow * bool :=
  if fetch_fails f then (None, true)
  else match filter (matches u a) (user_assets db) with
       | [] => (None, false)
       | [r] => (Some r, false)
       | _ => (None, true)
       end.

(** [delete().eq(..).eq(..)] *)
Definition delete_ownership (f : Faults) (u a : uuid) (db : Database)
  : bool * Database :=
  if write_fails f then (true, db)
  else (false,
        with_user_assets db
          (filter (fun r => negb (matches u a r)) (user_assets db))).

Definition set_percent (u a : uuid) (p : number) (r : OwnershipRow) : OwnershipRow :=
  if matches u a r
  then {| user_id := user_id r; asset_id := asset_id r; ownership_percent := p |}
  else r.

(** [update({ownership_percent: p}).eq(..).eq(..)]: the check constraint is
    evaluated on the rows that are updated. *)
Definition update_ownership (f : Faults) (u a : uuid) (p : number) (db : Database)
  : bool * Database :=
  if write_fails f then (true, db)
  else if existsb (matches u a) (user_assets db) && negb (check_percent p)
  then (true, db)
  else (false, with_user_assets db (map (set_percent u a p) (user_assets db))).

(** [insert({user_id, asset_id, ownership_percent})]: foreign keys, check
    constraint and [UNIQUE(user_id, asset_id)]. *)
Definition insert_ownership (f : Faults) (u a : uuid) (p : number) (db : Database)
  : bool * Database :=
  if write_fails f then (true, db)
  else if known u (profiles db) && known a (assets db) && check_percent p
          && negb (existsb (matches u a) (user_assets db))
  then (false,
        with_user_assets db
          (user_assets db ++
           [{| user_id := u; asset_id := a; ownership_percent := p |}]))
  else (true, db).

(** [from('transactions').insert(row)]: foreign keys, NOT NULL and the two
    check constraints of the table. *)
Definition insert_transaction (f : Faults) (row : TransactionRow) (db : Database)
  : bool * Database :=
  if record_fails f then (true, db)
  else if known (tx_asset_id row) (assets db)
          && fk_profile (buyer_id row) db && fk_profile (seller_id row) db
          && check_percent (percent_traded row)
          && is_finite (price_per_percent row) && is_finite (total_price row)
          && check_type (transaction_type row)
  then (false, with_transactions db (transactions db ++ [row]))
  else (true, db).

(** *** The handler *)

(** The body of the request, as [req.json()] gives it, with the types the
    interface declares; a field that is absent is [None]. *)
Record Request : Type := {
  assetId : option string;
  userId : option string;
  percentage : option number;
  mode : option string;
  pricePerPercent : option number
}.

Inductive Response : Type :=
| Ok200 (newOwnership : number)
| Err400 (error : string).

Definition truthy_string (s : string) : bool :=
  negb (String.eqb s "").

(** Computations of the [try] block: they read and write the tables and may
    throw; what was written before a throw stays written. *)
Definition M (A : Type) : Type := Database -> (string + A) * Database.

Definition ret {A : Type} (a : A) : M A := fun db => (inr a, db).

Definition throw {A : Type} (msg : string) : M A := fun db => (inl msg, db).

Definition bind {A B : Type} (m : M A) (k : A -> M B) : M B :=
  fun db =>
    match m db with
    | (inl msg, db') => (inl msg, db')
    | (inr a, db') => k a db'
    end.

Definition read {A : Type} (q : Database -> A) : M A :=
  fun db => (inr (q db), db).

(** A call that writes; it throws [msg] when the store reports an error. *)
Definition write (call : Database -> bool * Database) (msg : string) : M unit :=
  fun db =>
    let (err, db') := call db in
    if err then (inl msg, db') else (inr tt, db').

Definition check (failed : bool) (msg : string) : M unit :=
  if failed then throw msg else ret tt.

Notation "x <- m ;; k" := (bind m (fun x => k))
  (at level 61, m at next level, right associativity).
Notation "m ;;; k" := (bind m (fun _ => k))
  (at level 61, right associativity).

(** The row handed to [from('transactions').insert]. *)
Definition trade_record (a u : uuid) (p : number) (m : string) (ppp : number)
  : TransactionRow :=
  {| tx_asset_id := a;
     buyer_id := if String.eqb m "buy" then Some u else None;
     seller_id := if String.eqb m "sell" then Some u else None;
     percent_traded := p;
     price_per_percent := ppp;
     total_price := (p * ppp)%num;
     transaction_type := m |}.

Definition current_percent (o : option OwnershipRow) : number :=
  match o with
  | Some r => ownership_percent r
  | None => zero
  end.

(** The new ownership, or the message of the error thrown. *)
Definition new_percent (m : string) (cur p : number) : string + number :=
  if String.eqb m "buy"
  then
    let newPercent := (cur + p)%num in
    if (newPercent >? of_Z 100)%num
    then inl "Cannot own more than 100% of an asset"
    else inr newPercent
  else
    if (cur <? p)%num
    then inl "Insufficient ownership to sell"
    else inr (cur - p)%num.

Definition lift {A : Type} (r : string + A) : M A := fun db => (r, db).

Definition write_ownership (f : Faults) (u a : uuid)
    (currentOwnership : option OwnershipRow) (newPercent : number) : M unit :=
  if (newPercent === zero)%num
  then write (delete_ownership f u a) "Failed to update ownership"
  else match currentOwnership with
       | Some _ => write (update_ownership f u a newPercent) "Failed to update ownership"
       | None => write (insert_ownership f u a newPercent) "Failed to create ownership"
       end.

(** The handler once the fields are validated: read, compute, write the
    ownership, record the transaction. *)
Definition settle (f : Faults) (a u : uuid) (p : number) (m : string) (ppp : number)
  : M number :=
  fetched <- read (select_ownership f u a) ;;
  let (currentOwnership, fetchError) := fetched : option OwnershipRow * bool in
  check fetchError "Failed to fetch current ownership" ;;;
  let currentPercent := current_percent currentOwnership in
  newPercent <- lift (new_percent m currentPercent p) ;;
  write_ownership f u a currentOwnership newPercent ;;;
  write (insert_transaction f (trade_record a u p m ppp))
    "Failed to record transaction" ;;;
  ret newPercent.

(** The validation of the fields. *)
Definition missing (a u : string) (p : number) (m : string) (ppp : number) : bool :=
  negb (truthy_string a) || negb (truthy_string u) || negb (truthy p)
  || negb (truthy_string m) || negb (truthy ppp).

Definition invalid_percentage (p : number) : bool :=
  (p <=? zero)%num || (p >? of_Z 100)%num.

Definition trade (f : Faults) (req : Request) : M number :=
  match assetId req, userId req, percentage req, mode req, pricePerPercent req with
  | Some a, Some u, Some p, Some m, Some ppp =>
      check (missing a u p m ppp) "Missing required fields" ;;;
      check (invalid_percentage p) "Invalid percentage" ;;;
      settle f a u p m ppp
  | _, _, _, _, _ => throw "Missing required fields"
  end.

(** The [serve] callback: the [try] block and its [catch]. *)
Definition execute_trade (f : Faults) (req : Request) (db : Database)
  : Response * Database :=
  match trade f req db with
  | (inr newPercent, db') => (Ok200 newPercent, db')
  | (inl msg, db') => (Err400 msg, db')
  end.

(** Requests served one after the other, none of them hit by a fault of the
    store. *)
Fixpoint serve_all (reqs : list Request) (db : Database)
  : list Response * Database :=
  match reqs with
  | [] => ([], db)
  | req :: rest =>
      let (resp, db') := execute_trade no_faults req db in
      let (resps, db'') := serve_all rest db' in
      (resp :: resps, db'')
  end.

(** What [select_ownership] finds for a pair, read as a percentage. *)
Definition ownership (db : Database) (u a : uuid) : number :=
  current_percent (fst (select_ownership no_faults u a db)).

Definition buy (a u : uuid) (p ppp : number) : Request :=
  {| assetId := Some a; userId := Some u; percentage := Some p;
     mode := Some "buy"; pricePerPercent := Some ppp |}.

Definition sell (a u : uuid) (p ppp : number) : Request :=
  {| assetId := Some a; userId := Some u; percentage := Some p;
     mode := Some "sell"; pricePerPercent := Some ppp |}.

(** The invariant of [user_assets]: one row per pair, each percentage in
    (0, 100]. *)
Definition key (r : OwnershipRow) : uuid * uuid := (user_id r, asset_id r).

Definition in_range (p : number) : Prop :=
  exists q : Q, p = Fin q /\ (0 < q)%Q /\ (q <= 100)%Q.

Definition well_formed (db : Database) : Prop :=
  NoDup (map key (user_assets db)) /\
  Forall (fun r => in_range (ownership_percent r)) (user_assets db).

(** The pair [(u, a)] holds [c] percent: no row and [c] is zero, or one row
    with [c] in (0, 100]. *)
Definition owns (u a : uuid) (db : Database) (c : Q) : Prop :=
  (filter (matches u a) (user_assets db) = [] /\ (c == 0)%Q) \/
  (exists r, filter (matches u a) (user_assets db) = [r] /\
             ownership_percent r = Fin (Qred c) /\ (0 < c)%Q /\ (c <= 100)%Q).

(** The user and the asset exist. *)
Definition registered (u a : uuid) (db : Database) : Prop :=
  known u (profiles db) = true /\ known a (assets db) = true.

(** An order is a percentage in (0, 100] and a price per percent that is a
    finite number other than zero. *)
Definition order_ok (o : Q * number) : Prop :=
  (0 < fst o)%Q /\ (fst o <= 100)%Q /\ is_finite (snd o) = true /\ truthy (snd o) = true.

Definition Qsum (qs : list Q) : Q := fold_right Qplus 0 qs.

(** The table after a write of the ownership that the store accepted. *)
Definition written (u a : uuid) (o : option OwnershipRow) (np : number)
    (rows : list OwnershipRow) : list OwnershipRow :=
  if (np === zero)%num then filter (fun r => negb (matches u a r)) rows
  else match o with
       | Some _ => map (set_percent u a np) rows
       | None => rows ++ [{| user_id := u; asset_id := a; ownership_percent := np |}]
       end.

(** A request with an arbitrary mode. *)
Definition other (a u : uuid) (m : string) (q : Q) (ppp : number) : Request :=
  {| assetId := Some a; userId := Some u; percentage := Some (Fin q);
     mode := Some m; pricePerPercent := Some ppp |}.

(** A store with one asset and one user, and a request of that user, for
    the examples. *)
Definition sample_db : Database :=
  {| assets := ["solar-farm-alpha"]; profiles := ["alice"];
     user_assets := []; transactions := [] |}.

Definition holding (p : number) : Database :=
  with_user_assets sample_db
    [{| user_id := "alice"; asset_id := "solar-farm-alpha"; ownership_percent := p |}].

Definition request (m : string) (p ppp : Z) : Request :=
  {| assetId := Some "solar-farm-alpha"; userId := Some "alice";
     percentage := Some (of_Z p); mode := Some m; pricePerPercent := Some (of_Z ppp) |}.

(** The same faults, except that the insertion into the transaction log
    fails. *)
Definition record_failing (f : Faults) : Faults :=
  {| fetch_fails := fetch_fails f; write_fails := write_fails f; record_fails := true |}.

(** The messages the handler answers a failed request with. *)
Definition error_messages : list string :=
  [ "Missing required fields";
    "Invalid percentage";
    "Failed to fetch current ownership";
    "Cannot own more than 100% of an asset";
    "Insufficient ownership to sell";
    "Failed to update ownership";
    "Failed to create ownership";
    "Failed to record transaction" ].

Definition buys (a u : uuid) (orders : list (Q * number)) : list Request :=
  map (fun o => buy a u (Fin (fst o)) (snd o)) orders.

End Ledger.

(** ** The load-curve analyzer: [parseCSV], [analyzeLoadCurve] and the
       [analyze-load-curve] handler *)

Module Curve.

(** *** Strings *)

(** White space and line terminators, as [trim] and [parseFloat] skip them
    (the characters of the ASCII range). *)
Definition is_space (c : ascii) : bool :=
  let n := nat_of_ascii c in
  ((9 <=? n) && (n <=? 13))%nat || (n =? 32)%nat.

Fixpoint trim_start (s : string) : string :=
  match s with
  | EmptyString => EmptyString
  | String c t => if is_space c then trim_start t else s
  end.

Fixpoint trim_end (s : string) : string :=
  match s with
  | EmptyString => EmptyString
  | String c t =>
      let t' := trim_end t in
      if is_space c && String.eqb t' "" then EmptyString else String c t'
  end.

(** [s.trim()] *)
Definition trim (s : string) : string := trim_end (trim_start s).

(** [s.split(sep)] for a separator of one character. *)
Fixpoint split (sep : ascii) (s : string) : list string :=
  match s with
  | EmptyString => [EmptyString]
  | String c t =>
      if Ascii.eqb c sep then EmptyString :: split sep t
      else match split sep t with
           | h :: r => String c h :: r
           | [] => [String c EmptyString]
           end
  end.

Definition newline : ascii := ascii_of_nat 10.
Definition comma : ascii := ascii_of_nat 44.
Definition open_brace : ascii := ascii_of_nat 123.
Definition close_brace : ascii := ascii_of_nat 125.

(** *** [parseFloat] *)

Definition digit_of (c : ascii) : option Z :=
  let n := nat_of_ascii c in
  if ((48 <=? n) && (n <=? 57))%nat then Some (Z.of_nat (n - 48)) else None.

(** Reads a run of decimal digits: the value read so far, the number of
    digits read, and the rest of the string. *)
Fixpoint digits (s : string) (acc : Z) (count : nat) : Z * nat * string :=
  match s with
  | EmptyString => (acc, count, s)
  | String c t =>
      match digit_of c with
      | Some d => digits t (10 * acc + d)%Z (S count)
      | None => (acc, count, s)
      end
  end.

(** The exponent part [e], [e+] or [e-] followed by digits; [0] when there
    is none. *)
Definition exponent (s : string) : Z :=
  match s with
  | String c t =>
      if Ascii.eqb c "e" || Ascii.eqb c "E" then
        let (negative, u) :=
          match t with
          | String "-" u => (true, u)
          | String "+" u => (false, u)
          | _ => (false, t)
          end in
        let '(e, n, _) := digits u 0%Z 0%nat in
        if (n =? 0)%nat then 0%Z else if negative then (- e)%Z else e
      else 0%Z
  | EmptyString => 0%Z
  end.

(** [parseFloat(s)]: the longest prefix of the trimmed string that is a
    decimal literal, NaN when there is none.  The value is the exact value
    of the literal. *)
Definition parseFloat (input : string) : number :=
  let s := trim_start input in
  let (negative, s1) :=
    match s with
    | String "-" t => (true, t)
    | String "+" t => (false, t)
    | _ => (false, s)
    end in
  if String.prefix "Infinity" s1 then (if negative then NInf else PInf)
  else
    let '(int_part, n_int, s2) := digits s1 0%Z 0%nat in
    let '(mantissa, n_frac, s3) :=
      match s2 with
      | String "." t => digits t int_part 0%nat
      | _ => (int_part, 0%nat, s2)
      end in
    if (n_int + n_frac =? 0)%nat then NaN
    else
      let m := if negative then (- mantissa)%Z else mantissa in
      Fin (Qred (inject_Z m * Qpower (inject_Z 10) (exponent s3 - Z.of_nat n_frac))).

(** *** Dates *)

(** A [Date] object: its time value in milliseconds since the epoch, or
    none for an Invalid Date. *)
Definition Date : Type := option Z.

(** [d.getTime()] *)
Definition getTime (d : Date) : number :=
  match d with
  | Some t => of_Z t
  | None => NaN
  end.

Record LoadCurveData : Type := {
  timestamp : Date;
  value : number
}.

Record TimeSlots : Type := {
  night : number;
  morning : number;
  afternoon : number;
  evening : number
}.

(** The object [analyzeLoadCurve] returns; the numbers are the ones the
    source formats with [toFixed] on return. *)
Record Analysis : Type := {
  totalConsumption : number;
  avgDailyConsumption : number;
  peakLoad : number;
  timeOfDay : TimeSlots;
  pattern : string;
  dataPoints : nat
}.

(** The answer of the AI gateway: its HTTP status and what
    [response.json()] and [choices?.[0]?.message?.content] give (an
    exception message when the body is not JSON, no content when the path
    is missing). *)
Record GatewayReply : Type := {
  status : nat;
  content : string + option string
}.

Section Host.

(** [new Date(s)], the offset of local time from UTC in milliseconds at a
    given instant, and [JSON.parse] (an exception message or a value) are
    the runtime's. *)
Variable Date_parse : string -> Date.
Variable tz_offset : Z -> Z.
Variable json : Type.
Variable JSON_parse : string -> string + json.

(** [d.getHours()] *)
Definition getHours (d : Date) : number :=
  match d with
  | Some t => of_Z (((t + tz_offset t) / 3600000) mod 24)
  | None => NaN
  end.

Definition parse_row (line : string) : list LoadCurveData :=
  match split comma line with
  | timestamp :: value :: _ =>
      if Ledger.truthy_string timestamp && Ledger.truthy_string value
      then [{| timestamp := Date_parse timestamp; value := parseFloat value |}]
      else []
  | _ => []
  end.

Definition parseCSV (content : string) : list LoadCurveData :=
  let lines := split newline (trim content) in
  flat_map parse_row (tl lines).

Definition empty_slots : TimeSlots :=
  {| night := zero; morning := zero; afternoon := zero; evening := zero |}.

(** The body of [data.forEach]. *)
Definition add_sample (timeSlots : TimeSlots) (d : LoadCurveData) : TimeSlots :=
  let hour := getHours (timestamp d) in
  if (hour >=? zero)%num && (hour <? of_Z 6)%num then
    {| night := (night timeSlots + value d)%num; morning := morning timeSlots;
       afternoon := afternoon timeSlots; evening := evening timeSlots |}
  else if (hour >=? of_Z 6)%num && (hour <? of_Z 12)%num then
    {| night := night timeSlots; morning := (morning timeSlots + value d)%num;
       afternoon := afternoon timeSlots; evening := evening timeSlots |}
  else if (hour >=? of_Z 12)%num && (hour <? of_Z 18)%num then
    {| night := night timeSlots; morning := morning timeSlots;
       afternoon := (afternoon timeSlots + value d)%num; evening := evening timeSlots |}
  else
    {| night := night timeSlots; morning := morning timeSlots;
       afternoon := afternoon timeSlots; evening := (evening timeSlots + value d)%num |}.

Definition time_slots (data : list LoadCurveData) : TimeSlots :=
  fold_left add_sample data empty_slots.

Definition percentages (timeSlots : TimeSlots) (total : number) : TimeSlots :=
  {| night := (night timeSlots / total * of_Z 100)%num;
     morning := (morning timeSlots / total * of_Z 100)%num;
     afternoon := (afternoon timeSlots / total * of_Z 100)%num;
     evening := (evening timeSlots / total * of_Z 100)%num |}.

Definition classify (p : TimeSlots) : string :=
  let max := math_max [night p; morning p; afternoon p; evening p] in
  if (afternoon p === max)%num && (afternoon p >? of_Z 35)%num then "daytime-driven"
  else if (evening p === max)%num && (evening p >? of_Z 35)%num then "evening-driven"
  else if (night p === max)%num && (night p >? of_Z 30)%num then "night-driven"
  else "mixed".

Definition total_of (data : list LoadCurveData) : number :=
  fold_left (fun sum d => (sum + value d)%num) data zero.

Definition days_diff (firstDate lastDate : Date) : number :=
  ((getTime lastDate - getTime firstDate) / of_Z (1000 * 60 * 60 * 24))%num.

Definition analyzeLoadCurve (data : list LoadCurveData) : string + Analysis :=
  match data with
  | [] => inl "No data to analyze"
  | first :: _ =>
      let total := total_of data in
      let firstDate := timestamp first in
      let lastDate := timestamp (last data first) in
      let daysDiff := days_diff firstDate lastDate in
      let timeSlotPercentages := percentages (time_slots data) total in
      inr {| totalConsumption := total;
             avgDailyConsumption := (total / daysDiff)%num;
             peakLoad := math_max (map value data);
             timeOfDay := timeSlotPercentages;
             pattern := classify timeSlotPercentages;
             dataPoints := List.length data |}
  end.

(** *** The regular expression [/\{[\s\S]*\}/] *)

(** [[\s\S]*\}], greedy: the longest prefix that ends with a closing
    brace. *)
Fixpoint greedy_close (s : string) : option string :=
  match s with
  | EmptyString => None
  | String c t =>
      match greedy_close t with
      | Some m => Some (String c m)
      | None => if Ascii.eqb c close_brace then Some (String c EmptyString) else None
      end
  end.

(** A match that starts at the first character. *)
Definition match_here (s : string) : option string :=
  match s with
  | String c t =>
      if Ascii.eqb c open_brace then option_map (String c) (greedy_close t) else None
  | EmptyString => None
  end.

(** [s.match(/\{[\s\S]*\}/)]: the match at the leftmost position that has
    one. *)
Fixpoint json_match (s : string) : option string :=
  match match_here s with
  | Some m => Some m
  | None =>
      match s with
      | EmptyString => None
      | String _ t => json_match t
      end
  end.

(** *** The handler *)

Inductive Body : Type :=
| Failure (error : string)
| Success (result : json) (analysis : Analysis).

Definition HttpResponse : Type := (nat * Body)%type.

(** [new Response(JSON.stringify(body), { status })] *)
Definition respond (status : nat) (body : Body) : HttpResponse := (status, body).

(** From the model's reply to the response: the extraction of the JSON
    object and [JSON.parse], whose exception the [catch] block answers. *)
Definition extract (analysis : Analysis) (aiResponse : string) : HttpResponse :=
  match json_match aiResponse with
  | None => respond 500 (Failure "Invalid analysis format")
  | Some jsonMatch =>
      match JSON_parse jsonMatch with
      | inl msg => respond 500 (Failure msg)
      | inr result => respond 200 (Success result analysis)
      end
  end.

(** The [Deno.serve] callback, given the body's [fileContent], the API key
    of the environment and what the call of the gateway does (it throws, or
    answers). *)
Definition serve (fileContent : option string) (LOVABLE_API_KEY : option string)
    (gateway : string + GatewayReply) : HttpResponse :=
  match fileContent with
  | None => respond 400 (Failure "No file content provided")
  | Some fileContent =>
      if negb (Ledger.truthy_string fileContent)
      then respond 400 (Failure "No file content provided")
      else
        match analyzeLoadCurve (parseCSV fileContent) with
        | inl msg => respond 500 (Failure msg)
        | inr analysis =>
            match LOVABLE_API_KEY with
            | None => respond 500 (Failure "API configuration error")
            | Some k =>
                if negb (Ledger.truthy_string k)
                then respond 500 (Failure "API configuration error")
                else
                  match gateway with
                  | inl msg => respond 500 (Failure msg)
                  | inr response =>
                      if negb ((200 <=? status response) && (status response <=? 299))%nat
                      then
                        if (status response =? 429)%nat
                        then respond 429 (Failure "Rate limit exceeded. Please try again in a moment.")
                        else if (status response =? 402)%nat
                        then respond 402 (Failure "Payment required. Please add credits to your workspace.")
                        else respond 500 (Failure "Failed to analyze data")
                      else
                        match content response with
                        | inl msg => respond 500 (Failure msg)
                        | inr None => respond 500 (Failure "No analysis result received")
                        | inr (Some aiResponse) =>
                            if negb (Ledger.truthy_string aiResponse)
                            then respond 500 (Failure "No analysis result received")
                            else extract analysis aiResponse
                        end
                  end
            end
        end
  end.

End Host.

Arguments Failure {json} error.
Arguments Success {json} result analysis.
Arguments respond {json} status body.
Arguments extract {json} JSON_parse analysis aiResponse.
Arguments serve Date_parse tz_offset {json} JSON_parse fileContent LOVABLE_API_KEY gateway.

(** *** Shares and samples, for the statements *)

(** [x] is at least each of the four shares: it is the largest, alone or
    tied. *)
Definition is_top (x : number) (p : TimeSlots) : bool :=
  (night p <=? x)%num && (morning p <=? x)%num
  && (afternoon p <=? x)%num && (evening p <=? x)%num.

Definition slot_sum (s : TimeSlots) : number :=
  (night s + morning s + afternoon s + evening s)%num.

(** The four buckets, and the ranges of hours of the specification: night
    [0,6), morning [6,12), afternoon [12,18), evening [18,24). *)
Inductive Slot : Type := Night | Morning | Afternoon | Evening.

Definition slot_eqb (x y : Slot) : bool :=
  match x, y with
  | Night, Night | Morning, Morning | Afternoon, Afternoon | Evening, Evening => true
  | _, _ => false
  end.

Definition hour_slot (h : Z) : Slot :=
  if (h <? 6)%Z then Night
  else if (h <? 12)%Z then Morning
  else if (h <? 18)%Z then Afternoon
  else Evening.

Definition get_slot (b : Slot) (s : TimeSlots) : number :=
  match b with
  | Night => night s
  | Morning => morning s
  | Afternoon => afternoon s
  | Evening => evening s
  end.

(** The hour of a valid instant in local time. *)
Definition local_hour (tz_offset : Z -> Z) (t : Z) : Z :=
  ((t + tz_offset t) / 3600000) mod 24.

(** The bucket the [forEach] of [analyzeLoadCurve] adds a sample to. *)
Definition slot_of (tz_offset : Z -> Z) (d : LoadCurveData) : Slot :=
  let hour := getHours tz_offset (timestamp d) in
  if (hour >=? zero)%num && (hour <? of_Z 6)%num then Night
  else if (hour >=? of_Z 6)%num && (hour <? of_Z 12)%num then Morning
  else if (hour >=? of_Z 12)%num && (hour <? of_Z 18)%num then Afternoon
  else Evening.

Definition in_slot (tz_offset : Z -> Z) (b : Slot) (d : LoadCurveData) : bool :=
  slot_eqb (slot_of tz_offset d) b.

(** A runtime whose local time is UTC, and a sample at a given hour of the
    first day of the epoch. *)
Definition utc (t : Z) : Z := 0%Z.

Definition at_hour (h : Z) (v : number) : LoadCurveData :=
  {| timestamp := Some (h * 3600000)%Z; value := v |}.

(** [s] contains the character [c]. *)
Fixpoint has_char (c : ascii) (s : string) : bool :=
  match s with
  | EmptyString => false
  | String c' t => Ascii.eqb c' c || has_char c t
  end.

(** [{...}]: the text between braces, braces included. *)
Definition braced (body : string) : string :=
  String open_brace (body ++ String close_brace EmptyString).

(** A reply of the model: an object, and prose after it that mentions
    braces. *)
Definition dq : string := String (ascii_of_nat 34) EmptyString.

Definition sample_object : string :=
  braced (dq ++ "recommended_mix" ++ dq ++ ": "
          ++ braced (dq ++ "PV" ++ dq ++ ": 50, " ++ dq ++ "Wind" ++ dq ++ ": 30, "
                     ++ dq ++ "Battery" ++ dq ++ ": 20")).

Definition sample_reply : string :=
  "Recommended mix: " ++ sample_object ++ " (shares in {percent})".

(** Two files: one data row, and one data row whose value is not a
    number. *)
Definition line_break : string := String newline EmptyString.

Definition single_row_csv : string :=
  "timestamp,value" ++ line_break ++ "2024-01-01T00:00:00,10".

Definition non_numeric_csv : string :=
  "timestamp,value" ++ line_break ++ "2024-01-01T00:00:00,abc".

(** *** The extraction as the specification words it *)

(** The text after an opening brace up to the brace that closes it, [depth]
    counting the braces opened since. *)
Fixpoint balanced_rest (s : string) (depth : nat) : option string :=
  match s with
  | EmptyString => None
  | String c t =>
      if Ascii.eqb c open_brace then option_map (String c) (balanced_rest t (S depth))
      else if Ascii.eqb c close_brace then
        match depth with
        | O => Some (String c EmptyString)
        | S d => option_map (String c) (balanced_rest t d)
        end
      else option_map (String c) (balanced_rest t depth)
  end.

Definition balanced_here (s : string) : option string :=
  match s with
  | String c t =>
      if Ascii.eqb c open_brace then option_map (String c) (balanced_rest t 0) else None
  | EmptyString => None
  end.

(** The first balanced-brace substring of a text. *)
Fixpoint first_balanced (s : string) : option string :=
  match balanced_here s with
  | Some m => Some m
  | None =>
      match s with
      | EmptyString => None
      | String _ t => first_balanced t
      end
  end.

End Curve.

(** ** Two requests in flight: the handler before and after its first
       write *)

Module Flight.

Import Ledger.

(** What a request holds when its read of the ownership returns: the fields,
    the row read and the new ownership. *)
Record Pending : Type := {
  p_asset : uuid;
  p_user : uuid;
  p_percentage : number;
  p_mode : string;
  p_price : number;
  p_current : option OwnershipRow;
  p_new : number
}.

(** The handler up to its first write: the validation, the read and the
    business rule. *)
Definition prepare (f : Faults) (req : Request) : M Pending :=
  match assetId req, userId req, percentage req, mode req, pricePerPercent req with
  | Some a, Some u, Some p, Some m, Some ppp =>
      check (missing a u p m ppp) "Missing required fields" ;;;
      check (invalid_percentage p) "Invalid percentage" ;;;
      fetched <- read (select_ownership f u a) ;;
      let (currentOwnership, fetchError) := fetched : option OwnershipRow * bool in
      check fetchError "Failed to fetch current ownership" ;;;
      newPercent <- lift (new_percent m (current_percent currentOwnership) p) ;;
      ret {| p_asset := a; p_user := u; p_percentage := p; p_mode := m; p_price := ppp;
             p_current := currentOwnership; p_new := newPercent |}
  | _, _, _, _, _ => throw "Missing required fields"
  end.

(** The handler from its first write on: the write of the ownership and the
    insertion of the transaction. *)
Definition commit (f : Faults) (s : Pending) : M number :=
  write_ownership f (p_user s) (p_asset s) (p_current s) (p_new s) ;;;
  write (insert_transaction f
           (trade_record (p_asset s) (p_user s) (p_percentage s) (p_mode s) (p_price s)))
    "Failed to record transaction" ;;;
  ret (p_new s).

Definition answer (r : string + number) : Response :=
  match r with
  | inr newPercent => Ok200 newPercent
  | inl msg => Err400 msg
  end.

(** Two requests whose reads both return before either writes: the first
    then writes and records, and the second after it. *)
Definition overlapped (f : Faults) (req1 req2 : Request) (db : Database)
  : Response * Response * Database :=
  let (s1, db1) := prepare f req1 db in
  let (s2, db2) := prepare f req2 db1 in
  let (r1, db3) :=
    match s1 with
    | inr s => commit f s db2
    | inl msg => (inl msg, db2)
    end in
  let (r2, db4) :=
    match s2 with
    | inr s => commit f s db3
    | inl msg => (inl msg, db3)
    end in
  (answer r1, answer r2, db4).

(** The new ownership of an accepted trade. *)
Definition settled (m : string) (c q : Q) : Q :=
  if String.eqb m "buy" then (c + q)%Q else (c - q)%Q.

End Flight.

(** ** The pages: the trade dialog, the marketplace, the portfolio and the
       transaction history *)

Module Client.

Import Ledger.

Inductive AssetType : Type := PV | Wind | Battery.

Record Asset : Type := {
  id : string;
  name : string;
  type : AssetType;
  description : string;
  total_capacity_kw : number;
  location : string;
  price_per_percent : number;
  image_url : string
}.

(** A row of [user_assets] with its asset, as the pages load it. *)
Record UserAsset : Type := {
  ua_id : string;
  asset_id : string;
  ownership_percent : number;
  asset : Asset
}.

(** *** The trade dialog *)

Inductive Mode : Type := Buy | Sell.

Definition mode_string (m : Mode) : string :=
  match m with
  | Buy => "buy"
  | Sell => "sell"
  end.

Definition is_sell (m : Mode) : bool :=
  match m with
  | Sell => true
  | Buy => false
  end.

(** The title of the toast the dialog shows. *)
Inductive Toast : Type :=
| InvalidInput
| InsufficientOwnership
| InvalidPercentage
| TradeFailed
| TradeSuccessful.

(** The checks of [handleTrade] on what the user typed; they give the
    toast of the check that fails, or the percentage to trade. *)
Definition checked (mode : Mode) (percentage : string) (currentOwnership : number)
  : Toast + number :=
  let percent := Curve.parseFloat percentage in
  if is_nan percent || (percent <=? zero)%num then inl InvalidInput
  else if is_sell mode && (percent >? currentOwnership)%num then inl InsufficientOwnership
  else if (percent >? of_Z 100)%num then inl InvalidPercentage
  else inr percent.

(** The body of the request to [execute-trade]. *)
Definition trade_body (a : Asset) (user : uuid) (percent : number) (mode : Mode)
  : Request :=
  {| assetId := Some (id a); userId := Some user; percentage := Some percent;
     mode := Some (mode_string mode); pricePerPercent := Some (price_per_percent a) |}.

(** [handleTrade]: the checks, the signed-in user, the call of the handler;
    an answer other than a success comes back as an error of the call. *)
Definition handleTrade (f : Faults) (a : Asset) (mode : Mode) (percentage : string)
    (currentOwnership : number) (user : option uuid) (db : Database)
  : Toast * Database :=
  match checked mode percentage currentOwnership with
  | inl toast => (toast, db)
  | inr percent =>
      match user with
      | None => (TradeFailed, db)
      | Some user =>
          match execute_trade f (trade_body a user percent mode) db with
          | (Ok200 _, db') => (TradeSuccessful, db')
          | (Err400 _, db') => (TradeFailed, db')
          end
      end
  end.

(** [parseFloat(percentage) * asset.price_per_percent || 0] *)
Definition totalCost (a : Asset) (percentage : string) : number :=
  let cost := (Curve.parseFloat percentage * price_per_percent a)%num in
  if truthy cost then cost else zero.

(** *** The marketplace *)

(** [getUserOwnership] *)
Definition getUserOwnership (userAssets : list UserAsset) (assetId : string) : number :=
  match find (fun ua => String.eqb (asset_id ua) assetId) userAssets with
  | Some userAsset => ownership_percent userAsset
  | None => zero
  end.

(** The same search in a list of pairs of an asset and a percentage. *)
Definition lookup (a : string) (pairs : list (string * number)) : number :=
  match find (fun x => String.eqb (fst x) a) pairs with
  | Some x => snd x
  | None => zero
  end.

(** The Sell button of an asset is there when [ownership > 0]. *)
Definition sell_offered (userAssets : list UserAsset) (a : Asset) : bool :=
  (getUserOwnership userAssets (id a) >? zero)%num.

(** The rows of a user as the marketplace holds them mirror the table. *)
Definition mirrors (userAssets : list UserAsset) (u : uuid) (db : Database) : Prop :=
  map (fun ua => (asset_id ua, ownership_percent ua)) userAssets
  = map (fun r => (Ledger.asset_id r, Ledger.ownership_percent r))
      (filter (fun r => String.eqb (user_id r) u) (user_assets db)).

(** *** The portfolio *)

Definition card_value (ua : UserAsset) : number :=
  (ownership_percent ua * price_per_percent (asset ua))%num.

Definition capacity_share (ua : UserAsset) : number :=
  (ownership_percent ua / of_Z 100 * total_capacity_kw (asset ua))%num.

(** [totalValue] *)
Definition totalValue (userAssets : list UserAsset) : number :=
  fold_left (fun sum ua => (sum + ownership_percent ua * price_per_percent (asset ua))%num)
    userAssets zero.

(** A holding of the portfolio: a percentage in (0, 100], and a capacity
    and a price that are numbers at least zero. *)
Definition sound_holding (ua : UserAsset) : Prop :=
  exists p k x,
    ownership_percent ua = Fin p /\ (0 < p)%Q /\ (p <= 100)%Q /\
    total_capacity_kw (asset ua) = Fin k /\ (0 <= k)%Q /\
    price_per_percent (asset ua) = Fin x /\ (0 <= x)%Q.

(** *** The transaction history *)

(** The rows the query of the history selects for a user,
    [or(buyer_id.eq.user, seller_id.eq.user)], in the order of the table
    (the query then sorts them by [created_at], a column this model does
    not carry). *)
Definition party (user : uuid) (o : option uuid) : bool :=
  match o with
  | Some x => String.eqb x user
  | None => false
  end.

Definition history (user : uuid) (db : Database) : list TransactionRow :=
  filter (fun row => party user (buyer_id row) || party user (seller_id row))
    (transactions db).

(** *** An asset of the sample data of the migration, and a row of it *)

Definition solar_farm : Asset :=
  {| id := "solar-farm-alpha"; name := "Solar Farm Alpha"; type := PV;
     description := "Large-scale solar installation with 5000 panels";
     total_capacity_kw := of_Z 2000; location := "California, USA";
     price_per_percent := of_Z 150; image_url := "" |}.

Definition solar_share (p : number) : UserAsset :=
  {| ua_id := "row-1"; asset_id := "solar-farm-alpha"; ownership_percent := p;
     asset := solar_farm |}.

End Client.

(** ** Files of load-curve data *)

Module Csv.

Import Curve.

(** The text of a file: a header line, then one line per row, each a
    timestamp and a value separated by a comma. *)
Definition row_text (r : string * string) : string :=
  fst r ++ String comma (snd r).

Fixpoint rows_text (rows : list (string * string)) : string :=
  match rows with
  | [] => EmptyString
  | r :: rest => String newline (row_text r ++ rows_text rest)
  end.

Definition csv_text (header : string) (rows : list (string * string)) : string :=
  header ++ rows_text rows.

(** A field that is not empty and holds neither a comma nor a line
    break. *)
Definition field_ok (s : string) : bool :=
  negb (String.eqb s "") && negb (has_char comma s) && negb (has_char newline s).

Definition row_ok (r : string * string) : bool :=
  field_ok (fst r) && field_ok (snd r).

End Csv.


(** ** The handler that forwards the file to the model *)

(** The other [analyze-load-curve] handler of the repository: it computes no
    statistics of its own, puts the text of the file into the prompt, and
    answers with the object found in the model's reply. *)
Module Forward.

Import Curve.

Section Host.

Variable json : Type.
Variable JSON_parse : string -> string + json.

Inductive Body : Type :=
| Failure (error : string)
| Success (result : json).

Definition HttpResponse : Type := (nat * Body)%type.

Definition respond (status : nat) (body : Body) : HttpResponse := (status, body).

Definition extract (aiResponse : string) : HttpResponse :=
  match json_match aiResponse with
  | None => respond 500 (Failure "Invalid analysis format")
  | Some jsonMatch =>
      match JSON_parse jsonMatch with
      | inl msg => respond 500 (Failure msg)
      | inr result => respond 200 (Success result)
      end
  end.

Definition serve (fileContent : option string) (LOVABLE_API_KEY : option string)
    (gateway : string + GatewayReply) : HttpResponse :=
  match fileContent with
  | None => respond 400 (Failure "No file content provided")
  | Some fileContent =>
      if negb (Ledger.truthy_string fileContent)
      then respond 400 (Failure "No file content provided")
      else
        match LOVABLE_API_KEY with
        | None => respond 500 (Failure "API configuration error")
        | Some k =>
            if negb (Ledger.truthy_string k)
            then respond 500 (Failure "API configuration error")
            else
              match gateway with
              | inl msg => respond 500 (Failure msg)
              | inr response =>
                  if negb ((200 <=? status response) && (status response <=? 299))%nat
                  then
                    if (status response =? 429)%nat
                    then respond 429 (Failure "Rate limit exceeded. Please try again in a moment.")
                    else if (status response =? 402)%nat
                    then respond 402 (Failure "Payment required. Please add credits to your workspace.")
                    else respond 500 (Failure "Failed to analyze data")
                  else
                    match content response with
                    | inl msg => respond 500 (Failure msg)
                    | inr None => respond 500 (Failure "No analysis result received")
                    | inr (Some aiResponse) =>
                        if negb (Ledger.truthy_string aiResponse)
                        then respond 500 (Failure "No analysis result received")
                        else extract aiResponse
                    end
              end
        end
  end.

(** What is left of a response of the analysing handler when the
    [analysis] field is dropped. *)
Definition without_analysis (r : Curve.HttpResponse json) : HttpResponse :=
  match snd r with
  | Curve.Failure error => respond (fst r) (Failure error)
  | Curve.Success result _ => respond (fst r) (Success result)
  end.

End Host.

Arguments Failure {json} error.
Arguments Success {json} result.
Arguments respond {json} status body.
Arguments extract {json} JSON_parse aiResponse.
Arguments serve {json} JSON_parse fileContent LOVABLE_API_KEY gateway.
Arguments without_analysis {json} r.

End Forward.
(** * Properties *)

Import Ledger.

#[local] Arguments Qred : simpl never.
#[local] Arguments Qplus : simpl never.
#[local] Arguments Qminus : simpl never.
#[local] Arguments Qmult : simpl never.
#[local] Arguments Qdiv : simpl never.
#[local] Arguments Qopp : simpl never.
#[local] Arguments Qle_bool : simpl never.
#[local] Arguments Qeq_bool : simpl never.
#[local] Arguments Qcompare : simpl never.
#[local] Arguments inject_Z : simpl never.
#[local] Arguments Qltb : simpl never.

(** ** Facts about numbers *)

Section NumberFacts.

Lemma Qltb_true (a b : Q) : Qltb a b = true <-> (a < b)%Q.
Proof.
  unfold Qltb. rewrite negb_true_iff. split; intros H.
  - apply Qnot_le_lt. intros Hle. apply Qle_bool_iff in Hle. congruence.
  - destruct (Qle_bool b a) eqn:E; [|reflexivity].
    apply Qle_bool_iff in E. exfalso. apply (Qlt_not_le _ _ H E).
Qed.

Lemma Qltb_false (a b : Q) : Qltb a b = false <-> (b <= a)%Q.
Proof.
  unfold Qltb. rewrite negb_false_iff. apply Qle_bool_iff.
Qed.

Lemma Qle_bool_false (a b : Q) : Qle_bool a b = false <-> (b < a)%Q.
Proof.
  rewrite <- Qltb_true. unfold Qltb. rewrite negb_true_iff. reflexivity.
Qed.

Lemma Qeq_bool_false (a b : Q) : Qeq_bool a b = false <-> ~ (a == b)%Q.
Proof.
  split; intros H.
  - intros E. apply Qeq_bool_iff in E. congruence.
  - destruct (Qeq_bool a b) eqn:E; [|reflexivity].
    apply Qeq_bool_iff in E. contradiction.
Qed.

Lemma Qred_eq (a b : Q) : (a == b)%Q -> Qred a = Qred b.
Proof. apply Qred_complete. Qed.

Lemma Qred_add_l (a b : Q) : Qred (Qred a + b) = Qred (a + b).
Proof. apply Qred_complete. rewrite Qred_correct. reflexivity. Qed.

End NumberFacts.

(** ** Rows of one pair *)

Section Rows.

Variables u a : uuid.

Lemma truthy_given (s : string) : s <> "" -> truthy_string s = true.
Proof.
  intros H. unfold truthy_string. apply negb_true_iff.
  apply String.eqb_neq. exact H.
Qed.

Lemma matches_self (p : number) :
  matches u a {| user_id := u; asset_id := a; ownership_percent := p |} = true.
Proof. unfold matches. simpl. now rewrite !String.eqb_refl. Qed.

Lemma matches_set_percent (u' a' : uuid) (p : number) (r : OwnershipRow) :
  matches u' a' (set_percent u a p r) = matches u' a' r.
Proof.
  unfold set_percent. destruct (matches u a r); reflexivity.
Qed.

Lemma filter_set_percent (u' a' : uuid) (p : number) (rows : list OwnershipRow) :
  filter (matches u' a') (map (set_percent u a p) rows)
  = map (set_percent u a p) (filter (matches u' a') rows).
Proof.
  induction rows as [|r rows IH]; simpl; [reflexivity|].
  rewrite matches_set_percent. destruct (matches u' a' r); simpl; now rewrite IH.
Qed.

Lemma filter_nil_existsb (rows : list OwnershipRow) :
  filter (matches u a) rows = [] -> existsb (matches u a) rows = false.
Proof.
  induction rows as [|r rows IH]; simpl; [reflexivity|].
  destruct (matches u a r); [discriminate|]. exact IH.
Qed.

Lemma filter_one_existsb (rows : list OwnershipRow) (r : OwnershipRow) :
  filter (matches u a) rows = [r] -> existsb (matches u a) rows = true.
Proof.
  induction rows as [|r' rows IH]; simpl; [discriminate|].
  destruct (matches u a r'); [reflexivity|]. exact IH.
Qed.

Lemma filter_one_matches (rows : list OwnershipRow) (r : OwnershipRow) :
  filter (matches u a) rows = [r] -> matches u a r = true.
Proof.
  intros H. assert (In r (filter (matches u a) rows)) as Hin by (rewrite H; now left).
  apply filter_In in Hin. tauto.
Qed.

Lemma owns_ownership (db : Database) (c : Q) :
  owns u a db c -> ownership db u a = Fin (Qred c).
Proof.
  unfold ownership, select_ownership. simpl.
  intros [[Hnone Hc] | (r & Hone & Hr & _)].
  - rewrite Hnone. simpl. unfold zero. f_equal.
    rewrite (Qred_eq c 0 Hc). reflexivity.
  - rewrite Hone. simpl. exact Hr.
Qed.

(** What the handler reads for a pair that holds [c] percent. *)
Lemma owns_select (db : Database) (c : Q) :
  owns u a db c ->
  exists o, select_ownership no_faults u a db = (o, false) /\
            current_percent o = Fin (Qred c) /\
            (o = None -> (c == 0)%Q /\ filter (matches u a) (user_assets db) = []) /\
            (forall r, o = Some r ->
               (0 < c)%Q /\ (c <= 100)%Q /\ filter (matches u a) (user_assets db) = [r]).
Proof.
  unfold select_ownership. simpl.
  intros [[Hnone Hc] | (r & Hone & Hr & Hpos & Hle)].
  - exists None. rewrite Hnone. repeat split; try assumption; try discriminate.
    simpl. unfold zero. f_equal. rewrite (Qred_eq c 0 Hc). reflexivity.
  - exists (Some r). rewrite Hone. split; [reflexivity|]. split; [exact Hr|].
    split; [discriminate|]. intros r' E. injection E as <-. auto.
Qed.

End Rows.

(** ** The handler, step by step *)

Section Steps.

Variable f : Faults.

Lemma trade_run (req : Request) (db : Database) (a u : uuid) (p : number)
    (m : string) (ppp : number) :
  assetId req = Some a -> userId req = Some u -> percentage req = Some p ->
  mode req = Some m -> pricePerPercent req = Some ppp ->
  trade f req db =
    if missing a u p m ppp then (inl "Missing required fields", db)
    else if invalid_percentage p then (inl "Invalid percentage", db)
    else settle f a u p m ppp db.
Proof.
  intros Ha Hu Hp Hm Hppp. unfold trade. rewrite Ha, Hu, Hp, Hm, Hppp.
  unfold bind, check, throw, ret.
  destruct (missing a u p m ppp); [reflexivity|].
  destruct (invalid_percentage p); reflexivity.
Qed.

Lemma trade_absent (req : Request) (db : Database) :
  assetId req = None \/ userId req = None \/ percentage req = None \/
  mode req = None \/ pricePerPercent req = None ->
  trade f req db = (inl "Missing required fields", db).
Proof.
  unfold trade, throw.
  destruct (assetId req), (userId req), (percentage req), (mode req),
    (pricePerPercent req); intros H; try reflexivity;
    repeat (destruct H as [H|H]; try discriminate).
Qed.

Lemma settle_run (a u : uuid) (p : number) (m : string) (ppp : number) (db : Database) :
  settle f a u p m ppp db =
    let (o, fetchError) := select_ownership f u a db in
    if fetchError then (inl "Failed to fetch current ownership", db)
    else match new_percent m (current_percent o) p with
         | inl msg => (inl msg, db)
         | inr newPercent =>
             match write_ownership f u a o newPercent db with
             | (inl msg, db1) => (inl msg, db1)
             | (inr _, db1) =>
                 let (err, db2) := insert_transaction f (trade_record a u p m ppp) db1 in
                 if err then (inl "Failed to record transaction", db2)
                 else (inr newPercent, db2)
             end
         end.
Proof.
  unfold settle, bind, read, check, lift, write, throw, ret.
  destruct (select_ownership f u a db) as [o fetchError].
  destruct fetchError; [reflexivity|].
  destruct (new_percent m (current_percent o) p) as [msg|newPercent]; [reflexivity|].
  destruct (write_ownership f u a o newPercent db) as [[msg|[]] db1]; [reflexivity|].
  destruct (insert_transaction f (trade_record a u p m ppp) db1) as [[|] db2]; reflexivity.
Qed.

Lemma write_ownership_run (u a : uuid) (o : option OwnershipRow) (np : number)
    (db : Database) :
  write_ownership f u a o np db =
    let (err, db') :=
      if (np === zero)%num then delete_ownership f u a db
      else match o with
           | Some _ => update_ownership f u a np db
           | None => insert_ownership f u a np db
           end in
    if err
    then (inl (if (np === zero)%num then "Failed to update ownership"
               else match o with
                    | Some _ => "Failed to update ownership"
                    | None => "Failed to create ownership"
                    end), db')
    else (inr tt, db').
Proof.
  unfold write_ownership, write.
  destruct (np === zero)%num.
  - destruct (delete_ownership f u a db) as [[|] db']; reflexivity.
  - destruct o.
    + destruct (update_ownership f u a np db) as [[|] db']; reflexivity.
    + destruct (insert_ownership f u a np db) as [[|] db']; reflexivity.
Qed.

End Steps.

(** ** Buying in sequence *)

Section Buys.

Variables a u : uuid.
Hypothesis asset_given : a <> "".
Hypothesis user_given : u <> "".

Lemma percent_in_range (q : Q) :
  (0 < q)%Q -> (q <= 100)%Q -> check_percent (Fin q) = true.
Proof.
  intros H0 H100. unfold check_percent, gtb. simpl. apply andb_true_iff. split.
  - apply Qltb_true. exact H0.
  - apply Qle_bool_iff. exact H100.
Qed.

Lemma order_valid (q : Q) (m : string) (ppp : number) :
  order_ok (q, ppp) -> m <> "" ->
  missing a u (Fin q) m ppp = false /\ invalid_percentage (Fin q) = false.
Proof.
  intros (Hq0 & Hq100 & Hfin & Htruthy) Hm. simpl in *. split.
  - unfold missing. rewrite (truthy_given a asset_given), (truthy_given u user_given),
      (truthy_given m Hm), Htruthy. simpl.
    assert (E : Qeq_bool q 0 = false) by (apply Qeq_bool_false; lra).
    rewrite E. reflexivity.
  - unfold invalid_percentage, gtb. simpl. apply orb_false_iff. split.
    + apply Qle_bool_false. exact Hq0.
    + apply Qltb_false. exact Hq100.
Qed.

Lemma record_accepted (db : Database) (q : Q) (m : string) (ppp : number) :
  registered u a db -> order_ok (q, ppp) -> check_type m = true ->
  insert_transaction no_faults (trade_record a u (Fin q) m ppp) db
  = (false, with_transactions db
              (transactions db ++ [trade_record a u (Fin q) m ppp])).
Proof.
  intros [Hu Ha] (Hq0 & Hq100 & Hfin & Htruthy) Hm. simpl in *.
  unfold insert_transaction. simpl. rewrite Ha, Hfin, Hm.
  rewrite (percent_in_range q Hq0 Hq100).
  destruct ppp as [x| | |]; try discriminate. simpl.
  assert (fk_profile (if String.eqb m "buy" then Some u else None) db = true) as ->
    by (destruct (String.eqb m "buy"); [exact Hu | reflexivity]).
  assert (fk_profile (if String.eqb m "sell" then Some u else None) db = true) as ->
    by (destruct (String.eqb m "sell"); [exact Hu | reflexivity]).
  reflexivity.
Qed.

Lemma buy_accepted (db : Database) (c q : Q) (ppp : number) :
  owns u a db c -> registered u a db -> order_ok (q, ppp) ->
  (c + q <= 100)%Q ->
  exists db',
    execute_trade no_faults (buy a u (Fin q) ppp) db = (Ok200 (Fin (Qred (c + q))), db') /\
    owns u a db' (c + q) /\ registered u a db' /\
    transactions db' = (transactions db ++ [trade_record a u (Fin q) "buy" ppp])%list.
Proof.
  intros Hown Hreg Hok Hsum.
  destruct (order_valid q "buy" ppp Hok) as [Emiss Einv]; [discriminate|].
  pose proof Hok as (Hq0 & Hq100 & _). simpl in Hq0, Hq100.
  destruct (owns_select u a db c Hown) as (o & Hsel & Hcur & Hnone & Hsome).
  assert (Hc0 : (0 <= c)%Q).
  { destruct o as [r|].
    - destruct (Hsome r eq_refl) as (H & _). lra.
    - destruct (Hnone eq_refl) as (H & _). lra. }
  assert (Hnew : new_percent "buy" (Fin (Qred c)) (Fin q) = inr (Fin (Qred (c + q)))).
  { unfold new_percent, gtb. simpl. rewrite Qred_add_l.
    assert (Qltb (inject_Z 100) (Qred (c + q)) = false) as ->; [|reflexivity].
    apply Qltb_false. rewrite Qred_correct. exact Hsum. }
  assert (Hnz : (Fin (Qred (c + q)) === zero)%num = false).
  { simpl. apply Qeq_bool_false. rewrite Qred_correct. lra. }
  assert (Hchk : check_percent (Fin (Qred (c + q))) = true).
  { apply percent_in_range; rewrite Qred_correct; lra. }
  unfold execute_trade.
  rewrite (trade_run no_faults _ db a u (Fin q) "buy" ppp) by reflexivity.
  rewrite Emiss, Einv, settle_run, Hsel, Hcur, Hnew, write_ownership_run, Hnz.
  destruct Hreg as [Hu Ha].
  destruct o as [r|].
  - destruct (Hsome r eq_refl) as (Hc & Hc100 & Hrows).
    unfold update_ownership. simpl. rewrite Hchk, andb_false_r.
    rewrite record_accepted; [| split; assumption | exact Hok | reflexivity].
    eexists. split; [reflexivity|]. split; [|split; [split; assumption|reflexivity]].
    right. exists (set_percent u a (Fin (Qred (c + q))) r). simpl.
    rewrite filter_set_percent, Hrows. simpl. split; [reflexivity|].
    unfold set_percent. rewrite (filter_one_matches u a _ _ Hrows). simpl.
    split; [reflexivity|]. split; lra.
  - destruct (Hnone eq_refl) as (Hc & Hrows).
    unfold insert_ownership. simpl.
    rewrite Hu, Ha, Hchk, (filter_nil_existsb u a _ Hrows). simpl.
    rewrite record_accepted; [| split; assumption | exact Hok | reflexivity].
    eexists. split; [reflexivity|]. split; [|split; [split; assumption|reflexivity]].
    right. eexists. simpl. rewrite filter_app, Hrows. simpl.
    rewrite matches_self. split; [reflexivity|]. simpl.
    split; [reflexivity|]. split; lra.
Qed.

Lemma buy_refused (db : Database) (c q : Q) (ppp : number) :
  owns u a db c -> order_ok (q, ppp) -> (100 < c + q)%Q ->
  execute_trade no_faults (buy a u (Fin q) ppp) db
  = (Err400 "Cannot own more than 100% of an asset", db).
Proof.
  intros Hown Hok Hsum.
  destruct (order_valid q "buy" ppp Hok) as [Emiss Einv]; [discriminate|].
  destruct (owns_select u a db c Hown) as (o & Hsel & Hcur & _).
  unfold execute_trade.
  rewrite (trade_run no_faults _ db a u (Fin q) "buy" ppp) by reflexivity.
  rewrite Emiss, Einv, settle_run, Hsel, Hcur.
  unfold new_percent, gtb. simpl. rewrite Qred_add_l.
  assert (Qltb (inject_Z 100) (Qred (c + q)) = true) as ->; [|reflexivity].
  apply Qltb_true. rewrite Qred_correct. exact Hsum.
Qed.

Lemma Qsum_cons (q : Q) (qs : list Q) : Qsum (q :: qs) = (q + Qsum qs)%Q.
Proof. reflexivity. Qed.

Lemma owns_equiv (db : Database) (c c' : Q) :
  (c == c')%Q -> owns u a db c -> owns u a db c'.
Proof.
  intros E [[Hrows Hc] | (r & Hrows & Hr & H0 & H100)].
  - left. split; [exact Hrows | lra].
  - right. exists r. rewrite <- (Qred_eq c c' E). repeat split; try assumption; lra.
Qed.

Lemma Qsum_firstn_nonneg (orders : list (Q * number)) (n : nat) :
  Forall order_ok orders -> (0 <= Qsum (firstn n (map fst orders)))%Q.
Proof.
  intros Hok. revert n. induction Hok as [|o orders Ho _ IH]; intros [|n]; simpl; try lra.
  specialize (IH n). destruct Ho as (H0 & _). lra.
Qed.

Lemma serve_buys (orders : list (Q * number)) :
  forall (n : nat) (db : Database) (c : Q),
  owns u a db c -> registered u a db -> Forall order_ok orders ->
  (n <= List.length orders)%nat ->
  (c + Qsum (firstn n (map fst orders)) <= 100)%Q ->
  exists db',
    serve_all (firstn n (buys a u orders)) db
    = (map (fun k => Ok200 (Fin (Qred (c + Qsum (firstn k (map fst orders))))))
         (seq 1 n), db') /\
    owns u a db' (c + Qsum (firstn n (map fst orders))) /\ registered u a db'.
Proof.
  induction orders as [|[q ppp] orders IH]; intros n db c Hown Hreg Hok Hn Hsum.
  - assert (n = 0%nat) as -> by (simpl in Hn; lia). simpl.
    exists db. split; [reflexivity|]. split; [|exact Hreg].
    apply (owns_equiv db c); [simpl; lra | exact Hown].
  - destruct n as [|n].
    + simpl. exists db. split; [reflexivity|]. split; [|exact Hreg].
      apply (owns_equiv db c); [simpl; lra | exact Hown].
    + inversion Hok as [|? ? Ho Hrest]; subst.
      pose proof (Qsum_firstn_nonneg orders n Hrest) as Hpos.
      cbn [firstn map fst] in Hsum. rewrite Qsum_cons in Hsum.
      destruct (buy_accepted db c q ppp Hown Hreg Ho) as (db1 & Hrun & Hown1 & Hreg1 & _);
        [lra|].
      destruct (IH n db1 (c + q)%Q Hown1 Hreg1 Hrest) as (db2 & Hrest_run & Hown2 & Hreg2);
        [simpl in Hn; lia | lra |].
      exists db2. split; [|split; [|exact Hreg2]].
      * change (firstn (S n) (buys a u ((q, ppp) :: orders)))
          with (buy a u (Fin q) ppp :: firstn n (buys a u orders)).
        cbn [serve_all]. rewrite Hrun, Hrest_run.
        cbn [seq map]. f_equal. f_equal.
        -- f_equal. f_equal. apply Qred_eq. cbn [firstn map fst].
           rewrite Qsum_cons. cbn [Qsum fold_right]. lra.
        -- rewrite <- (seq_shift n 1), map_map. apply map_ext. intros k.
           f_equal. f_equal. apply Qred_eq.
           cbn [firstn map fst]. rewrite Qsum_cons. lra.
      * apply (owns_equiv db2 (c + q + Qsum (firstn n (map fst orders)))%Q);
          [cbn [firstn map fst]; rewrite Qsum_cons; lra | exact Hown2].
Qed.


End Buys.

(** ** What a successful trade went through *)

Section Success.

Lemma execute_trade_ok (f : Faults) (req : Request) (db db' : Database) (np : number) :
  execute_trade f req db = (Ok200 np, db') ->
  exists a u p m ppp o db1,
    assetId req = Some a /\ userId req = Some u /\ percentage req = Some p /\
    mode req = Some m /\ pricePerPercent req = Some ppp /\
    missing a u p m ppp = false /\ invalid_percentage p = false /\
    select_ownership f u a db = (o, false) /\
    new_percent m (current_percent o) p = inr np /\
    write_ownership f u a o np db = (inr tt, db1) /\
    insert_transaction f (trade_record a u p m ppp) db1 = (false, db').
Proof.
  unfold execute_trade. intros H.
  destruct (assetId req) as [a|] eqn:Ea;
    [|rewrite trade_absent in H by auto; discriminate].
  destruct (userId req) as [u|] eqn:Eu;
    [|rewrite trade_absent in H by auto; discriminate].
  destruct (percentage req) as [p|] eqn:Ep;
    [|rewrite trade_absent in H by auto; discriminate].
  destruct (mode req) as [m|] eqn:Em;
    [|rewrite trade_absent in H by auto; discriminate].
  destruct (pricePerPercent req) as [ppp|] eqn:Eppp;
    [|rewrite trade_absent in H by auto 6; discriminate].
  rewrite (trade_run f req db a u p m ppp Ea Eu Ep Em Eppp) in H.
  destruct (missing a u p m ppp) eqn:Emiss; [discriminate|].
  destruct (invalid_percentage p) eqn:Einv; [discriminate|].
  rewrite settle_run in H.
  destruct (select_ownership f u a db) as [o [|]] eqn:Esel; [discriminate|].
  destruct (new_percent m (current_percent o) p) as [msg|np'] eqn:Enew; [discriminate|].
  destruct (write_ownership f u a o np' db) as [[msg|[]] db1] eqn:Ew; [discriminate|].
  destruct (insert_transaction f (trade_record a u p m ppp) db1) as [[|] db2] eqn:Et;
    [discriminate|].
  injection H as <- <-.
  exists a, u, p, m, ppp, o, db1. repeat split; reflexivity || assumption.
Qed.

(** A percentage that passes the validation is a rational in (0, 100]. *)
Lemma validated_percentage (a u : string) (p : number) (m : string) (ppp : number) :
  missing a u p m ppp = false -> invalid_percentage p = false ->
  exists q, p = Fin q /\ (0 < q)%Q /\ (q <= 100)%Q.
Proof.
  unfold missing, invalid_percentage, gtb. intros Hmiss Hinv.
  apply orb_false_iff in Hinv. destruct Hinv as [H0 H100].
  assert (Hp : truthy p = true).
  { destruct (truthy p); [reflexivity|].
    rewrite !orb_true_r in Hmiss. discriminate. }
  destruct p as [q| | |]; simpl in *; try discriminate.
  exists q. split; [reflexivity|]. split.
  - apply Qle_bool_false. exact H0.
  - apply Qltb_false. exact H100.
Qed.

Lemma check_percent_in_range (p : number) : check_percent p = true <-> in_range p.
Proof.
  unfold check_percent, gtb, in_range. split.
  - intros H. apply andb_true_iff in H. destruct H as [H0 H100].
    destruct p as [q| | |]; simpl in *; try discriminate.
    exists q. split; [reflexivity|]. split.
    + apply Qltb_true. exact H0.
    + apply Qle_bool_iff. exact H100.
  - intros (q & -> & H0 & H100). simpl. apply andb_true_iff. split.
    + apply Qltb_true. exact H0.
    + apply Qle_bool_iff. exact H100.
Qed.

End Success.

(** ** The invariant of [user_assets] *)

Section Invariant.

Variable f : Faults.
Variables u a : uuid.

Lemma key_matches (r : OwnershipRow) : matches u a r = true <-> key r = (u, a).
Proof.
  unfold matches, key. rewrite andb_true_iff, !String.eqb_eq. split.
  - intros [-> ->]. reflexivity.
  - intros E. injection E as -> ->. split; reflexivity.
Qed.

Lemma NoDup_keys_filter (g : OwnershipRow -> bool) (rows : list OwnershipRow) :
  NoDup (map key rows) -> NoDup (map key (filter g rows)).
Proof.
  induction rows as [|r rows IH]; simpl; intros H; [constructor|].
  inversion H as [|? ? Hnotin Hrest]; subst.
  destruct (g r); simpl; [|auto].
  constructor; [|auto]. intros Hin. apply Hnotin.
  apply in_map_iff in Hin. destruct Hin as (r' & Hk & Hin').
  apply filter_In in Hin'. apply in_map_iff. exists r'. tauto.
Qed.

Lemma keys_set_percent (p : number) (rows : list OwnershipRow) :
  map key (map (set_percent u a p) rows) = map key rows.
Proof.
  rewrite map_map. apply map_ext. intros r. unfold set_percent.
  destruct (matches u a r); reflexivity.
Qed.

(** At most one row per pair: a query finds no row or one. *)
Lemma filter_unique (rows : list OwnershipRow) :
  NoDup (map key rows) ->
  filter (matches u a) rows = [] \/ exists r, filter (matches u a) rows = [r].
Proof.
  intros Hnd. pose proof (NoDup_keys_filter (matches u a) rows Hnd) as H.
  destruct (filter (matches u a) rows) as [|r1 [|r2 rest]] eqn:E; [left; reflexivity| |].
  - right. exists r1. reflexivity.
  - exfalso.
    assert (H1 : matches u a r1 = true).
    { assert (In r1 (filter (matches u a) rows)) as Hin by (rewrite E; simpl; auto).
      apply filter_In in Hin. tauto. }
    assert (H2 : matches u a r2 = true).
    { assert (In r2 (filter (matches u a) rows)) as Hin by (rewrite E; simpl; auto).
      apply filter_In in Hin. tauto. }
    apply key_matches in H1, H2. simpl in H. rewrite H1, H2 in H.
    inversion H as [|? ? Hnotin _]; subst. apply Hnotin. left. reflexivity.
Qed.

Lemma delete_well_formed (db : Database) :
  well_formed db -> well_formed (snd (delete_ownership f u a db)).
Proof.
  intros [Hnd Hall]. unfold delete_ownership.
  destruct (write_fails f); [split; assumption|].
  split; cbn [snd user_assets with_user_assets].
  - apply NoDup_keys_filter. exact Hnd.
  - apply Forall_forall. intros r Hin. apply filter_In in Hin.
    rewrite Forall_forall in Hall. apply Hall. tauto.
Qed.

Lemma update_well_formed (db : Database) (p : number) :
  well_formed db -> well_formed (snd (update_ownership f u a p db)).
Proof.
  intros [Hnd Hall]. unfold update_ownership.
  destruct (write_fails f); [split; assumption|].
  destruct (existsb (matches u a) (user_assets db) && negb (check_percent p)) eqn:E;
    [split; assumption|]. split; cbn [snd user_assets with_user_assets].
  - rewrite keys_set_percent. exact Hnd.
  - apply Forall_forall. intros r' Hin. apply in_map_iff in Hin.
    destruct Hin as (r & <- & Hin). rewrite Forall_forall in Hall.
    unfold set_percent. destruct (matches u a r) eqn:Em; [|auto]. simpl.
    apply check_percent_in_range.
    assert (Hex : existsb (matches u a) (user_assets db) = true)
      by (apply existsb_exists; exists r; auto).
    rewrite Hex in E. simpl in E. apply negb_false_iff in E. exact E.
Qed.

Lemma insert_well_formed (db : Database) (p : number) :
  well_formed db -> well_formed (snd (insert_ownership f u a p db)).
Proof.
  intros [Hnd Hall]. unfold insert_ownership.
  destruct (write_fails f); [split; assumption|].
  destruct (known u (profiles db) && known a (assets db) && check_percent p
            && negb (existsb (matches u a) (user_assets db))) eqn:E;
    [|split; assumption].
  apply andb_true_iff in E. destruct E as [E Hfresh].
  apply andb_true_iff in E. destruct E as [_ Hchk].
  apply negb_true_iff in Hfresh. split; cbn [snd user_assets with_user_assets].
  - rewrite map_app. simpl. apply NoDup_app; [exact Hnd | repeat constructor; auto |].
    intros k Hin [<-|[]]. apply in_map_iff in Hin. destruct Hin as (r & Hk & Hin).
    apply key_matches in Hk.
    assert (existsb (matches u a) (user_assets db) = true)
      by (apply existsb_exists; exists r; auto).
    congruence.
  - apply Forall_app. split; [exact Hall|]. constructor; [|constructor].
    simpl. apply check_percent_in_range. exact Hchk.
Qed.

Lemma record_well_formed (db : Database) (row : TransactionRow) :
  well_formed db -> well_formed (snd (insert_transaction f row db)).
Proof.
  intros H. unfold insert_transaction.
  destruct (record_fails f); simpl; [exact H|].
  match goal with |- context [if ?b then _ else _] => destruct b end; exact H.
Qed.

Lemma write_ownership_well_formed (db : Database) (o : option OwnershipRow) (np : number) :
  well_formed db -> well_formed (snd (write_ownership f u a o np db)).
Proof.
  intros H. rewrite write_ownership_run.
  destruct (np === zero)%num.
  - pose proof (delete_well_formed db H) as H'.
    destruct (delete_ownership f u a db) as [[|] db']; exact H'.
  - destruct o.
    + pose proof (update_well_formed db np H) as H'.
      destruct (update_ownership f u a np db) as [[|] db']; exact H'.
    + pose proof (insert_well_formed db np H) as H'.
      destruct (insert_ownership f u a np db) as [[|] db']; exact H'.
Qed.

End Invariant.

Lemma execute_trade_well_formed (f : Faults) (req : Request) (db : Database) :
  well_formed db -> well_formed (snd (execute_trade f req db)).
Proof.
  intros H. unfold execute_trade.
  assert (Hgoal : well_formed (snd (trade f req db))).
  { destruct (assetId req) as [a|] eqn:Ea;
      [|rewrite trade_absent by auto; exact H].
    destruct (userId req) as [u|] eqn:Eu;
      [|rewrite trade_absent by auto; exact H].
    destruct (percentage req) as [p|] eqn:Ep;
      [|rewrite trade_absent by auto; exact H].
    destruct (mode req) as [m|] eqn:Em;
      [|rewrite trade_absent by auto; exact H].
    destruct (pricePerPercent req) as [ppp|] eqn:Eppp;
      [|rewrite trade_absent by auto 6; exact H].
    rewrite (trade_run f req db a u p m ppp Ea Eu Ep Em Eppp).
    destruct (missing a u p m ppp); [exact H|].
    destruct (invalid_percentage p); [exact H|].
    rewrite settle_run.
    destruct (select_ownership f u a db) as [o [|]]; [exact H|].
    destruct (new_percent m (current_percent o) p) as [msg|np]; [exact H|].
    pose proof (write_ownership_well_formed f u a db o np H) as H1.
    destruct (write_ownership f u a o np db) as [[msg|[]] db1]; [exact H1|].
    pose proof (record_well_formed f db1 (trade_record a u p m ppp) H1) as H2.
    destruct (insert_transaction f (trade_record a u p m ppp) db1) as [[|] db2]; exact H2. }
  destruct (trade f req db) as [[msg|np] db']; exact Hgoal.
Qed.

Section Settlement.

Variable f : Faults.
Variables u a : uuid.

Lemma select_found (db : Database) (o : option OwnershipRow) :
  select_ownership f u a db = (o, false) ->
  (o = None /\ filter (matches u a) (user_assets db) = []) \/
  (exists r, o = Some r /\ filter (matches u a) (user_assets db) = [r]).
Proof.
  unfold select_ownership. destruct (fetch_fails f); [discriminate|].
  destruct (filter (matches u a) (user_assets db)) as [|r [|r' rest]]; intros E;
    inversion E; subst; [left | right; exists r]; split; reflexivity.
Qed.

(** What the handler reads from a well-formed table is zero or a percentage
    in (0, 100]. *)
Lemma current_in_range (db : Database) (o : option OwnershipRow) :
  well_formed db -> select_ownership f u a db = (o, false) ->
  exists c, current_percent o = Fin c /\ (0 <= c)%Q /\ (c <= 100)%Q /\
            (o = None -> c = 0%Q) /\ (o <> None -> (0 < c)%Q).
Proof.
  intros [_ Hall] Hsel.
  destruct (select_found db o Hsel) as [[-> _] | (r & -> & Hrows)].
  - exists 0%Q. simpl. repeat split; try lra; try reflexivity. congruence.
  - assert (Hin : In r (user_assets db)).
    { assert (In r (filter (matches u a) (user_assets db))) as H
        by (rewrite Hrows; left; reflexivity).
      apply filter_In in H. tauto. }
    rewrite Forall_forall in Hall. destruct (Hall r Hin) as (c & Hc & H0 & H100).
    exists c. simpl. repeat split; try assumption; try lra. discriminate.
Qed.

(** The new ownership the handler computes is never negative and never
    above 100. *)
Lemma new_percent_range (m : string) (c q : Q) (np : number) :
  (0 <= c)%Q -> (c <= 100)%Q -> (0 < q)%Q ->
  new_percent m (Fin c) (Fin q) = inr np ->
  exists n, np = Fin (Qred n) /\ (0 <= n)%Q /\ (n <= 100)%Q /\
            (m = "buy" -> (n == c + q)%Q) /\ (m <> "buy" -> (n == c - q)%Q).
Proof.
  intros Hc0 Hc100 Hq. unfold new_percent, gtb.
  destruct (String.eqb m "buy") eqn:Em.
  - apply String.eqb_eq in Em. simpl.
    destruct (Qltb (inject_Z 100) (Qred (c + q))) eqn:E; [discriminate|].
    intros H. injection H as <-. apply Qltb_false in E. rewrite Qred_correct in E.
    unfold inject_Z in E. exists (c + q)%Q. split; [reflexivity|]. split; [lra|]. split; [lra|].
    split; intros; [reflexivity | congruence].
  - apply String.eqb_neq in Em. simpl.
    destruct (Qltb c q) eqn:E; [discriminate|].
    intros H. injection H as <-. apply Qltb_false in E.
    exists (c - q)%Q. split; [reflexivity|]. split; [lra|]. split; [lra|].
    split; intros; [congruence | reflexivity].
Qed.

Lemma zero_or_in_range (n : Q) :
  (0 <= n)%Q -> (n <= 100)%Q ->
  ((Fin (Qred n) === zero)%num = true /\ Fin (Qred n) = zero) \/
  ((Fin (Qred n) === zero)%num = false /\ check_percent (Fin (Qred n)) = true /\ (0 < n)%Q).
Proof.
  intros H0 H100. simpl. destruct (Qeq_bool (Qred n) 0) eqn:E.
  - left. split; [reflexivity|]. apply Qeq_bool_iff in E. rewrite Qred_correct in E.
    unfold zero. f_equal. rewrite (Qred_eq n 0 E). reflexivity.
  - right. split; [reflexivity|]. apply Qeq_bool_false in E. rewrite Qred_correct in E.
    split; [|lra]. apply percent_in_range; rewrite Qred_correct; lra.
Qed.

End Settlement.

Section Writes.

Variable f : Faults.
Variables u a : uuid.

Lemma write_ownership_done (o : option OwnershipRow) (np : number) (db db1 : Database) :
  write_ownership f u a o np db = (inr tt, db1) ->
  db1 = with_user_assets db (written u a o np (user_assets db)).
Proof.
  rewrite write_ownership_run. unfold written.
  destruct (np === zero)%num.
  - unfold delete_ownership. destruct (write_fails f); [discriminate|].
    intros E. injection E as <-. reflexivity.
  - destruct o.
    + unfold update_ownership. destruct (write_fails f); [discriminate|].
      destruct (existsb (matches u a) (user_assets db) && negb (check_percent np));
        [discriminate|].
      intros E. injection E as <-. reflexivity.
    + unfold insert_ownership. destruct (write_fails f); [discriminate|].
      destruct (known u (profiles db) && known a (assets db) && check_percent np
                && negb (existsb (matches u a) (user_assets db))); [|discriminate].
      intros E. injection E as <-. reflexivity.
Qed.

Lemma write_ownership_accepted (o : option OwnershipRow) (np : number) (db : Database) :
  write_fails f = false ->
  (np === zero)%num = true \/
  (check_percent np = true /\
   (o = None -> registered u a db /\ existsb (matches u a) (user_assets db) = false)) ->
  exists db1, write_ownership f u a o np db = (inr tt, db1).
Proof.
  intros Hf H. rewrite write_ownership_run.
  destruct (np === zero)%num eqn:Ez.
  - unfold delete_ownership. rewrite Hf. eexists. reflexivity.
  - destruct H as [H | [Hchk Hnone]]; [discriminate|]. destruct o.
    + unfold update_ownership. rewrite Hf, Hchk, andb_false_r. eexists. reflexivity.
    + destruct (Hnone eq_refl) as [[Hu Ha] Hfresh].
      unfold insert_ownership. rewrite Hf, Hu, Ha, Hchk, Hfresh. eexists. reflexivity.
Qed.

Lemma record_done (row : TransactionRow) (db db' : Database) :
  insert_transaction f row db = (false, db') ->
  db' = with_transactions db (transactions db ++ [row]) /\
  check_type (transaction_type row) = true /\
  check_percent (percent_traded row) = true /\
  is_finite (price_per_percent row) = true /\ is_finite (total_price row) = true.
Proof.
  unfold insert_transaction. destruct (record_fails f); [discriminate|].
  destruct (known (tx_asset_id row) (assets db) && fk_profile (buyer_id row) db
            && fk_profile (seller_id row) db && check_percent (percent_traded row)
            && is_finite (price_per_percent row) && is_finite (total_price row)
            && check_type (transaction_type row)) eqn:E; [|discriminate].
  intros H. injection H as <-.
  repeat (apply andb_true_iff in E; destruct E as [E ?]). auto.
Qed.

(** What a query finds in the table after the write. *)
Lemma written_rows (o : option OwnershipRow) (np : number) (db : Database) :
  select_ownership f u a db = (o, false) ->
  filter (matches u a) (written u a o np (user_assets db))
  = if (np === zero)%num then []
    else [{| user_id := u; asset_id := a; ownership_percent := np |}].
Proof.
  intros Hsel. unfold written. destruct (np === zero)%num.
  - induction (user_assets db) as [|r rows IH]; simpl; [reflexivity|].
    destruct (matches u a r) eqn:E; simpl; [exact IH|]. rewrite E. exact IH.
  - destruct (select_found f u a db o Hsel) as [[-> Hrows] | (r & -> & Hrows)].
    + rewrite filter_app, Hrows. simpl. rewrite matches_self. reflexivity.
    + rewrite filter_set_percent, Hrows. simpl. unfold set_percent.
      pose proof (filter_one_matches u a _ _ Hrows) as Hm. rewrite Hm.
      unfold matches in Hm. apply andb_true_iff in Hm. destruct Hm as [Hu Ha].
      apply String.eqb_eq in Hu, Ha. rewrite Hu, Ha. reflexivity.
Qed.

End Writes.

Lemma new_percent_message (m : string) (cur p : number) (msg : string) :
  new_percent m cur p = inl msg ->
  msg = "Cannot own more than 100% of an asset" \/ msg = "Insufficient ownership to sell".
Proof.
  unfold new_percent. destruct (String.eqb m "buy").
  - destruct (cur + p >? of_Z 100)%num; intros E; inversion E. left. reflexivity.
  - destruct (cur <? p)%num; intros E; inversion E. right. reflexivity.
Qed.


(** ** The transaction log *)

(** C3.  A successful trade appends exactly one row to the transaction log.
    Its kind is buy or sell; the buyer is the acting user and there is no
    seller when it is a buy, the seller is the acting user and there is no
    buyer when it is a sell; the percentage traded is the percentage of the
    request and the total price is that percentage times the price per
    percent. *)
Theorem trade_recorded (f : Faults) (req : Request) (db db' : Database) (np : number) :
  execute_trade f req db = (Ok200 np, db') ->
  exists a u q m x row,
    assetId req = Some a /\ userId req = Some u /\ percentage req = Some (Fin q) /\
    mode req = Some m /\ pricePerPercent req = Some (Fin x) /\
    transactions db' = (transactions db ++ [row])%list /\
    tx_asset_id row = a /\ transaction_type row = m /\
    ((m = "buy" /\ buyer_id row = Some u /\ seller_id row = None) \/
     (m = "sell" /\ seller_id row = Some u /\ buyer_id row = None)) /\
    percent_traded row = Fin q /\ price_per_percent row = Fin x /\
    total_price row = (Fin q * Fin x)%num /\
    exists t, total_price row = Fin t /\ (t == q * x)%Q.
Proof.
  intros Hrun.
  destruct (execute_trade_ok f req db db' np Hrun)
    as (a & u & p & m & ppp & o & db1 & Ea & Eu & Ep & Em & Eppp & Hmiss & Hinv
        & Hsel & Hnew & Hw & Hrec).
  destruct (validated_percentage a u p m ppp Hmiss Hinv) as (q & -> & _).
  apply write_ownership_done in Hw. apply record_done in Hrec.
  destruct Hrec as (-> & Htype & _ & Hfin & _). subst db1.
  cbn [transaction_type price_per_percent trade_record] in Htype, Hfin.
  destruct ppp as [x| | |]; try discriminate.
  exists a, u, q, m, x, (trade_record a u (Fin q) m (Fin x)).
  repeat (split; [reflexivity || assumption|]).
  cbn [trade_record transaction_type buyer_id seller_id percent_traded
       price_per_percent total_price tx_asset_id].
  split; [|split; [reflexivity|]].
  - unfold check_type in Htype. apply orb_true_iff in Htype.
    destruct Htype as [E|E]; apply String.eqb_eq in E; subst m; [left|right];
      repeat split; reflexivity.
  - split; [reflexivity|]. split; [reflexivity|].
    exists (Qred (q * x)). split; [reflexivity|]. apply Qred_correct.
Qed.

(** ** Failures *)

Section Failures.

Lemma trade_message (f : Faults) (req : Request) (db db' : Database) (msg : string) :
  trade f req db = (inl msg, db') -> In msg error_messages.
Proof.
  unfold error_messages.
  destruct (assetId req) as [a|] eqn:Ea;
    [|rewrite trade_absent by auto; intros E; injection E as <- _; simpl; auto].
  destruct (userId req) as [u|] eqn:Eu;
    [|rewrite trade_absent by auto; intros E; injection E as <- _; simpl; auto].
  destruct (percentage req) as [p|] eqn:Ep;
    [|rewrite trade_absent by auto; intros E; injection E as <- _; simpl; auto].
  destruct (mode req) as [m|] eqn:Em;
    [|rewrite trade_absent by auto; intros E; injection E as <- _; simpl; auto].
  destruct (pricePerPercent req) as [ppp|] eqn:Eppp;
    [|rewrite trade_absent by auto 6; intros E; injection E as <- _; simpl; auto].
  rewrite (trade_run f req db a u p m ppp Ea Eu Ep Em Eppp).
  destruct (missing a u p m ppp); [intros E; injection E as <- _; simpl; auto|].
  destruct (invalid_percentage p); [intros E; injection E as <- _; simpl; auto|].
  rewrite settle_run.
  destruct (select_ownership f u a db) as [o [|]];
    [intros E; injection E as <- _; simpl; auto|].
  destruct (new_percent m (current_percent o) p) as [msg'|np] eqn:Hnew.
  { intros E. injection E as <- _.
    destruct (new_percent_message _ _ _ _ Hnew) as [-> | ->]; simpl; auto 6. }
  rewrite write_ownership_run.
  destruct (np === zero)%num;
    [destruct (delete_ownership f u a db) as [[|] db1]
    |destruct o; [destruct (update_ownership f u a np db) as [[|] db1]
                 |destruct (insert_ownership f u a np db) as [[|] db1]]];
    try (intros E; injection E as <- _; simpl; auto 8);
    (destruct (insert_transaction f (trade_record a u p m ppp) db1) as [[|] db2];
     intros E; [injection E as <- _; simpl; auto 10 | discriminate]).
Qed.

Lemma record_failure_after_write (f : Faults) (req : Request) (db db' : Database)
    (np : number) :
  execute_trade f req db = (Ok200 np, db') ->
  execute_trade (record_failing f) req db
  = (Err400 "Failed to record transaction", with_transactions db' (transactions db)).
Proof.
  intros Hrun.
  destruct (execute_trade_ok f req db db' np Hrun)
    as (a & u & p & m & ppp & o & db1 & Ea & Eu & Ep & Em & Eppp & Hmiss & Hinv
        & Hsel & Hnew & Hw & Hrec).
  unfold execute_trade.
  rewrite (trade_run _ req db a u p m ppp Ea Eu Ep Em Eppp), Hmiss, Hinv, settle_run.
  assert (Hsel' : select_ownership (record_failing f) u a db = (o, false)) by exact Hsel.
  assert (Hw' : write_ownership (record_failing f) u a o np db = (inr tt, db1)) by exact Hw.
  rewrite Hsel', Hnew, Hw'. unfold insert_transaction at 1. simpl.
  apply write_ownership_done in Hw. apply record_done in Hrec. destruct Hrec as (-> & _).
  subst db1. reflexivity.
Qed.

Lemma success_no_fault (f : Faults) (req : Request) (db db' : Database) (np : number) :
  execute_trade f req db = (Ok200 np, db') ->
  fetch_fails f = false /\ write_fails f = false /\ record_fails f = false.
Proof.
  intros Hrun.
  destruct (execute_trade_ok f req db db' np Hrun)
    as (a & u & p & m & ppp & o & db1 & _ & _ & _ & _ & _ & _ & _ & Hsel & _ & Hw & Hrec).
  split; [|split].
  - unfold select_ownership in Hsel. destruct (fetch_fails f); [discriminate|reflexivity].
  - rewrite write_ownership_run in Hw.
    unfold delete_ownership, update_ownership, insert_ownership in Hw.
    destruct (write_fails f); [|reflexivity].
    destruct (np === zero)%num; [discriminate|]. destruct o; discriminate.
  - unfold insert_transaction in Hrec. destruct (record_fails f); [discriminate|reflexivity].
Qed.

(** C4.  A request that fails at any step is answered with one of the
    handler's error messages and never with a success: a success means that
    the validation, the read, the business rule, the write of the ownership
    and the insertion of the transaction all went through.  The steps are
    not atomic: whenever a trade succeeds, the same trade with a failing
    insertion of the transaction is answered with an error while the change
    of the ownership stays in the store and no transaction is recorded; such
    an execution exists. *)
Theorem trade_failures :
  (forall f req db msg db',
     execute_trade f req db = (Err400 msg, db') -> In msg error_messages) /\
  (forall f req db np db',
     execute_trade f req db = (Ok200 np, db') ->
     (fetch_fails f = false /\ write_fails f = false /\ record_fails f = false) /\
     exists a u p m ppp o db1,
       assetId req = Some a /\ userId req = Some u /\ percentage req = Some p /\
       mode req = Some m /\ pricePerPercent req = Some ppp /\
       missing a u p m ppp = false /\ invalid_percentage p = false /\
       select_ownership f u a db = (o, false) /\
       new_percent m (current_percent o) p = inr np /\
       write_ownership f u a o np db = (inr tt, db1) /\
       insert_transaction f (trade_record a u p m ppp) db1 = (false, db')) /\
  (forall f req db np db',
     execute_trade f req db = (Ok200 np, db') ->
     execute_trade (record_failing f) req db
     = (Err400 "Failed to record transaction", with_transactions db' (transactions db))) /\
  (exists f req db db',
     write_fails f = false /\ record_fails f = true /\
     execute_trade f req db = (Err400 "Failed to record transaction", db') /\
     ownership db "alice" "solar-farm-alpha" = zero /\
     ownership db' "alice" "solar-farm-alpha" = of_Z 30 /\
     transactions db' = transactions db).
Proof.
  split; [|split; [|split]].
  - intros f req db msg db'. unfold execute_trade.
    destruct (trade f req db) as [[msg'|np] db1] eqn:E; intros H; [|discriminate].
    injection H as <- _. exact (trade_message f req db db1 msg' E).
  - intros f req db np db' Hrun. split.
    + exact (success_no_fault f req db db' np Hrun).
    + exact (execute_trade_ok f req db db' np Hrun).
  - intros f req db np db'. apply record_failure_after_write.
  - exists (record_failing no_faults), (request "buy" 30 150), sample_db,
      (holding (of_Z 30)).
    repeat split; reflexivity.
Qed.

Lemma trade_failures_witness :
  In "Insufficient ownership to sell" error_messages /\
  execute_trade (record_failing no_faults) (request "sell" 20 150) (holding (of_Z 50))
  = (Err400 "Failed to record transaction", holding (of_Z 30)).
Proof.
  split.
  - apply (proj1 trade_failures no_faults (request "sell" 20 150) sample_db
             "Insufficient ownership to sell" sample_db).
    reflexivity.
  - apply (proj1 (proj2 (proj2 trade_failures)) no_faults (request "sell" 20 150)
             (holding (of_Z 50)) (of_Z 30)
             (with_transactions (holding (of_Z 30))
                [trade_record "solar-farm-alpha" "alice" (of_Z 20) "sell" (of_Z 150)])).
    reflexivity.
Defined.

End Failures.

(** ** A mode that is neither buy nor sell *)

Section UnknownMode.

Variables a u : uuid.
Hypothesis asset_given : a <> "".
Hypothesis user_given : u <> "".

(** C5, as the code has it.  The handler only checks that the mode is
    present.  A request whose mode is a non-empty string other than buy and
    sell passes the validation and goes through the sell branch: it is
    rejected when the current ownership is below the percentage, and
    otherwise the ownership is decremented and written.  The row the handler
    then submits to the transaction log carries that string as its type and
    neither buyer nor seller; the check constraint of the table on the type
    rejects it, so that no transaction is recorded and the request is
    answered with an error while the decremented ownership stays. *)
Theorem unknown_mode_sells (db : Database) (c q : Q) (m : string) (ppp : number) :
  m <> "" -> m <> "buy" -> m <> "sell" ->
  owns u a db c -> registered u a db -> order_ok (q, ppp) ->
  (missing a u (Fin q) m ppp = false /\ invalid_percentage (Fin q) = false) /\
  (transaction_type (trade_record a u (Fin q) m ppp) = m /\
   buyer_id (trade_record a u (Fin q) m ppp) = None /\
   seller_id (trade_record a u (Fin q) m ppp) = None) /\
  ((c < q)%Q ->
   execute_trade no_faults (other a u m q ppp) db
   = (Err400 "Insufficient ownership to sell", db)) /\
  ((q <= c)%Q ->
   exists db',
     execute_trade no_faults (other a u m q ppp) db
     = (Err400 "Failed to record transaction", db') /\
     owns u a db' (c - q) /\
     insert_transaction no_faults (trade_record a u (Fin q) m ppp) db' = (true, db') /\
     transactions db' = transactions db).
Proof.
  intros Hm Hbuy Hsell Hown Hreg Hok.
  destruct (order_valid a u asset_given user_given q m ppp Hok Hm) as [Emiss Einv].
  pose proof Hok as (Hq0 & Hq100 & Hfin & _). simpl in Hq0, Hq100, Hfin.
  apply String.eqb_neq in Hbuy, Hsell.
  assert (Hrec : forall db1,
             insert_transaction no_faults (trade_record a u (Fin q) m ppp) db1 = (true, db1)).
  { intros db1. unfold insert_transaction, check_type.
    cbn [record_fails no_faults transaction_type trade_record].
    rewrite Hbuy, Hsell. cbn [orb]. rewrite !andb_false_r. reflexivity. }
  destruct (owns_select u a db c Hown) as (o & Hsel & Hcur & Hnone & Hsome).
  split; [split; assumption|]. split.
  { unfold trade_record. cbn [transaction_type buyer_id seller_id].
    rewrite Hbuy, Hsell. repeat split; reflexivity. }
  split.
  - intros Hlt. unfold execute_trade.
    rewrite (trade_run no_faults _ db a u (Fin q) m ppp) by reflexivity.
    rewrite Emiss, Einv, settle_run, Hsel, Hcur. unfold new_percent. rewrite Hbuy.
    cbn [ltb].
    assert (Qltb (Qred c) q = true) as -> by (apply Qltb_true; rewrite Qred_correct; lra).
    reflexivity.
  - intros Hle.
    assert (Hnew : new_percent m (Fin (Qred c)) (Fin q) = inr (Fin (Qred (c - q)))).
    { unfold new_percent. rewrite Hbuy. cbn [ltb sub].
      assert (Qltb (Qred c) q = false) as -> by (apply Qltb_false; rewrite Qred_correct; lra).
      f_equal. f_equal. apply Qred_eq. rewrite Qred_correct. reflexivity. }
    destruct o as [r|]; [|destruct (Hnone eq_refl) as (Hc & _); lra].
    destruct (Hsome r eq_refl) as (Hc0 & Hc100 & Hrows).
    assert (Hn0 : (0 <= c - q)%Q) by lra. assert (Hn100 : (c - q <= 100)%Q) by lra.
    unfold execute_trade.
    rewrite (trade_run no_faults _ db a u (Fin q) m ppp) by reflexivity.
    rewrite Emiss, Einv, settle_run, Hsel, Hcur, Hnew, write_ownership_run.
    destruct (zero_or_in_range (c - q) Hn0 Hn100) as [[Hz _] | (Hz & Hchk & Hpos)];
      rewrite Hz.
    + unfold delete_ownership. cbn [write_fails no_faults]. rewrite Hrec.
      eexists. split; [reflexivity|]. split; [|split; [apply Hrec | reflexivity]].
      left. cbn [user_assets with_user_assets]. split.
      * clear. induction (user_assets db) as [|r' rows IH]; simpl; [reflexivity|].
        destruct (matches u a r') eqn:E; simpl; [exact IH|]. rewrite E. exact IH.
      * cbn [eqb zero] in Hz. apply Qeq_bool_iff in Hz. rewrite Qred_correct in Hz.
        exact Hz.
    + unfold update_ownership. cbn [write_fails no_faults].
      rewrite Hchk, andb_false_r, Hrec.
      eexists. split; [reflexivity|]. split; [|split; [apply Hrec | reflexivity]].
      right. exists (set_percent u a (Fin (Qred (c - q))) r).
      cbn [user_assets with_user_assets].
      rewrite filter_set_percent, Hrows. split; [reflexivity|].
      unfold set_percent. rewrite (filter_one_matches u a _ _ Hrows).
      split; [reflexivity|]. split; lra.
Qed.

End UnknownMode.

(** The claim as the specification words it fails: the request is answered
    with an error and the log holds no row of that type. *)
Lemma unknown_mode_not_recorded :
  let run := execute_trade no_faults (request "hold" 10 150) (holding (of_Z 50)) in
  fst run = Err400 "Failed to record transaction" /\
  ownership (snd run) "alice" "solar-farm-alpha" = of_Z 40 /\
  ~ exists row, In row (transactions (snd run)) /\ transaction_type row = "hold".
Proof.
  split; [reflexivity|]. split; [reflexivity|].
  intros (row & Hin & _). exact Hin.
Qed.

Lemma unknown_mode_sells_witness :
  exists db',
    execute_trade no_faults (other "solar-farm-alpha" "alice" "hold" 10 (of_Z 150))
      (holding (of_Z 50))
    = (Err400 "Failed to record transaction", db') /\
    owns "alice" "solar-farm-alpha" db' (50 - 10).
Proof.
  destruct (unknown_mode_sells "solar-farm-alpha" "alice" ltac:(discriminate)
              ltac:(discriminate) (holding (of_Z 50)) 50 10 "hold" (of_Z 150))
    as (_ & _ & _ & H); try discriminate.
  - right. eexists. split; [reflexivity|]. split; [reflexivity|]. split; lra.
  - split; reflexivity.
  - repeat split; try reflexivity; simpl; lra.
  - destruct H as (db' & Hrun & Hown & _); [lra|]. exists db'. split; assumption.
Defined.

(** ** The order of numbers and [Math.max] *)

Section Order.

Ltac qprop :=
  repeat match goal with
  | H : Qle_bool _ _ = true |- _ => apply Qle_bool_iff in H
  | H : Qle_bool _ _ = false |- _ => apply Qle_bool_false in H
  | H : Qltb _ _ = true |- _ => apply Qltb_true in H
  | H : Qltb _ _ = false |- _ => apply Qltb_false in H
  | H : Qeq_bool _ _ = true |- _ => apply Qeq_bool_iff in H
  | H : Qeq_bool _ _ = false |- _ => apply Qeq_bool_false in H
  end.

Ltac qcases :=
  repeat match goal with
  | |- context [Qle_bool ?x ?y] => destruct (Qle_bool x y) eqn:?
  | |- context [Qltb ?x ?y] => destruct (Qltb x y) eqn:?
  | |- context [Qeq_bool ?x ?y] => destruct (Qeq_bool x y) eqn:?
  end;
  qprop; try reflexivity; try discriminate; try (exfalso; lra).

Lemma leb_refl (x : number) : is_nan x = false -> (x <=? x)%num = true.
Proof. destruct x; simpl; intros H; try reflexivity; try discriminate. qcases. Qed.

Lemma leb_trans (x y z : number) :
  (x <=? y)%num = true -> (y <=? z)%num = true -> (x <=? z)%num = true.
Proof.
  destruct x, y, z; simpl; intros H1 H2; try reflexivity; try discriminate.
  qprop. apply Qle_bool_iff. lra.
Qed.

Lemma eqb_leb (x y : number) : (x === y)%num = (x <=? y)%num && (y <=? x)%num.
Proof. destruct x, y; simpl; try reflexivity. qcases. Qed.

Lemma leb_nan_l (x : number) : (NaN <=? x)%num = false.
Proof. reflexivity. Qed.

Lemma leb_nan_r (x : number) : (x <=? NaN)%num = false.
Proof. destruct x; reflexivity. Qed.

Lemma ltb_leb (x y : number) : (x <? y)%num = true -> (y <=? x)%num = false.
Proof. destruct x, y; simpl; intros H; try reflexivity; try discriminate. qcases. Qed.

Lemma max2_bounds (x y : number) :
  is_nan x = false -> is_nan y = false ->
  (max2 x y = x \/ max2 x y = y) /\
  (x <=? max2 x y)%num = true /\ (y <=? max2 x y)%num = true /\
  is_nan (max2 x y) = false.
Proof.
  destruct x as [p| | |], y as [q| | |]; simpl; intros Hx Hy; try discriminate;
    try (repeat split; auto; qcases; fail).
  destruct (Qltb p q) eqn:E; qprop; (split; [auto|]); simpl;
    (split; [apply Qle_bool_iff; lra|]); (split; [apply Qle_bool_iff; lra | reflexivity]).
Qed.

Lemma max2_nan (x y : number) :
  is_nan x = true \/ is_nan y = true -> max2 x y = NaN.
Proof. destruct x, y; simpl; intros [H|H]; try discriminate; reflexivity. Qed.

Lemma fold_max_nan (xs : list number) (acc : number) :
  existsb is_nan (acc :: xs) = true -> fold_left max2 xs acc = NaN.
Proof.
  revert acc. induction xs as [|x xs IH]; intros acc H; simpl in *.
  - rewrite orb_false_r in H. destruct acc; try discriminate. reflexivity.
  - apply IH. simpl. apply orb_true_iff in H. destruct H as [H|H].
    + rewrite (max2_nan acc x) by auto. reflexivity.
    + apply orb_true_iff in H. destruct H as [H|H].
      * rewrite (max2_nan acc x) by auto. reflexivity.
      * rewrite H. apply orb_true_r.
Qed.

Lemma fold_max_bounds (xs : list number) (acc : number) :
  existsb is_nan (acc :: xs) = false ->
  In (fold_left max2 xs acc) (acc :: xs) /\
  forall y, In y (acc :: xs) -> (y <=? fold_left max2 xs acc)%num = true.
Proof.
  revert acc. induction xs as [|x xs IH]; intros acc H.
  - simpl in *. rewrite orb_false_r in H. split; [auto|].
    intros y [<-|[]]. apply leb_refl. exact H.
  - cbn [existsb] in H. apply orb_false_iff in H. destruct H as [Hacc H].
    apply orb_false_iff in H. destruct H as [Hx Hxs].
    destruct (max2_bounds acc x Hacc Hx) as (Hsel & Hle1 & Hle2 & Hnn).
    destruct (IH (max2 acc x)) as [Hin Hub].
    { cbn [existsb]. rewrite Hnn, Hxs. reflexivity. }
    cbn [fold_left]. split.
    + destruct Hin as [Hin|Hin]; [|right; right; exact Hin].
      rewrite <- Hin. destruct Hsel as [-> | ->]; simpl; auto.
    + intros y [<-|[<-|Hy]].
      * apply (leb_trans _ (max2 acc x)); [exact Hle1 | apply Hub; left; reflexivity].
      * apply (leb_trans _ (max2 acc x)); [exact Hle2 | apply Hub; left; reflexivity].
      * apply Hub. right. exact Hy.
Qed.

(** An argument equals [Math.max] of the arguments exactly when it is at
    least each of them. *)
Lemma eqb_math_max (xs : list number) (x : number) :
  In x xs -> (x === math_max xs)%num = forallb (fun y => (y <=? x)%num) xs.
Proof.
  intros Hx. unfold math_max.
  destruct (existsb is_nan (NInf :: xs)) eqn:Hnan.
  - rewrite (fold_max_nan xs NInf Hnan).
    assert ((x === NaN)%num = false) as -> by (destruct x; reflexivity).
    symmetry. apply not_true_is_false. intros Hall.
    rewrite forallb_forall in Hall. simpl in Hnan.
    apply existsb_exists in Hnan. destruct Hnan as (y & Hy & Hynan).
    specialize (Hall y Hy). destruct y; try discriminate.
  - destruct (fold_max_bounds xs NInf Hnan) as [Hin Hub].
    assert (Hxn : is_nan x = false).
    { simpl in Hnan. destruct (is_nan x) eqn:E; [|reflexivity].
      assert (existsb is_nan xs = true) by (apply existsb_exists; exists x; auto).
      congruence. }
    rewrite eqb_leb, (Hub x (or_intror Hx)). cbn [andb].
    destruct (fold_left max2 xs NInf <=? x)%num eqn:Hle.
    + symmetry. apply forallb_forall. intros y Hy.
      apply (leb_trans _ (fold_left max2 xs NInf)); [apply Hub; right; exact Hy | exact Hle].
    + symmetry. apply not_true_is_false. intros Hall. rewrite forallb_forall in Hall.
      destruct Hin as [Hin|Hin].
      * rewrite <- Hin in Hle. destruct x; simpl in *; discriminate.
      * rewrite (Hall _ Hin) in Hle. discriminate.
Qed.

End Order.

(** ** The pattern label *)

Import Curve.

Section Pattern.

Lemma classify_top (p : TimeSlots) :
  classify p =
    if is_top (afternoon p) p && (afternoon p >? of_Z 35)%num then "daytime-driven"
    else if is_top (evening p) p && (evening p >? of_Z 35)%num then "evening-driven"
    else if is_top (night p) p && (night p >? of_Z 30)%num then "night-driven"
    else "mixed".
Proof.
  unfold classify, is_top.
  rewrite !eqb_math_max by (simpl; auto).
  cbn [forallb]. rewrite !andb_true_r, !andb_assoc. reflexivity.
Qed.

(** C6, as the code has it.  The label is daytime-driven when the afternoon
    share is at least each of the four shares and exceeds 35; otherwise
    evening-driven when the evening share is at least each of them and
    exceeds 35; otherwise night-driven when the night share is at least each
    of them and exceeds 30; otherwise mixed.  A morning share strictly above
    the three others gives mixed; a tie at the top does not prevent a driven
    label: afternoon and evening tied at the top above 35 give
    daytime-driven. *)
Theorem pattern_label (tz : Z -> Z) (data : list LoadCurveData) (r : Analysis) :
  analyzeLoadCurve tz data = inr r ->
  let p := timeOfDay r in
  pattern r =
    (if is_top (afternoon p) p && (afternoon p >? of_Z 35)%num then "daytime-driven"
     else if is_top (evening p) p && (evening p >? of_Z 35)%num then "evening-driven"
     else if is_top (night p) p && (night p >? of_Z 30)%num then "night-driven"
     else "mixed") /\
  ((night p <? morning p)%num = true -> (afternoon p <? morning p)%num = true ->
   (evening p <? morning p)%num = true -> pattern r = "mixed") /\
  ((afternoon p === evening p)%num = true -> is_top (afternoon p) p = true ->
   (afternoon p >? of_Z 35)%num = true -> pattern r = "daytime-driven").
Proof.
  intros Hrun p.
  assert (Hpat : pattern r = classify p).
  { unfold analyzeLoadCurve in Hrun. destruct data as [|d data]; [discriminate|].
    injection Hrun as <-. reflexivity. }
  rewrite Hpat, classify_top. split; [reflexivity|]. split.
  - intros Hn Ha He. unfold is_top.
    rewrite (ltb_leb _ _ Hn), (ltb_leb _ _ Ha), (ltb_leb _ _ He).
    rewrite !andb_false_r. reflexivity.
  - intros _ Htop Hgt. rewrite Htop, Hgt. reflexivity.
Qed.

(** The claim as the specification words it fails: two equal samples, one
    in the afternoon and one in the evening, tie at 50 percent and the label
    is daytime-driven. *)
Lemma tie_is_driven :
  exists r,
    analyzeLoadCurve utc [at_hour 13 (of_Z 1); at_hour 19 (of_Z 1)] = inr r /\
    afternoon (timeOfDay r) = of_Z 50 /\ evening (timeOfDay r) = of_Z 50 /\
    night (timeOfDay r) = zero /\ morning (timeOfDay r) = zero /\
    pattern r = "daytime-driven".
Proof. eexists. repeat split; reflexivity. Qed.

Lemma pattern_label_witness :
  exists r,
    analyzeLoadCurve utc [at_hour 8 (of_Z 3); at_hour 13 (of_Z 1); at_hour 19 (of_Z 1)]
    = inr r /\ pattern r = "mixed".
Proof.
  eexists. split; [reflexivity|].
  apply (pattern_label utc [at_hour 8 (of_Z 3); at_hour 13 (of_Z 1); at_hour 19 (of_Z 1)]);
    reflexivity.
Defined.

End Pattern.

(** ** The extraction of the JSON object *)

Section Extraction.

Lemma append_last (body : string) (c : ascii) (post : string) :
  (body ++ String c "") ++ post = body ++ String c post.
Proof.
  induction body as [|c' body IH]; simpl; [reflexivity|]. rewrite IH. reflexivity.
Qed.

Lemma greedy_close_none (s : string) :
  has_char close_brace s = false -> greedy_close s = None.
Proof.
  induction s as [|c t IH]; simpl; intros H; [reflexivity|].
  apply orb_false_iff in H. destruct H as [Hc Ht].
  rewrite (IH Ht), Hc. reflexivity.
Qed.

Lemma greedy_close_some (s : string) :
  has_char close_brace s = true -> exists m, greedy_close s = Some m.
Proof.
  induction s as [|c t IH]; simpl; intros H; [discriminate|].
  destruct (greedy_close t) as [m|] eqn:E; [eauto|].
  destruct (Ascii.eqb c close_brace) eqn:Ec; [eauto|].
  simpl in H. destruct (IH H) as (m & Hm). discriminate.
Qed.

(** Greedy: the match runs to the last closing brace. *)
Lemma greedy_close_last (body post : string) :
  has_char close_brace post = false ->
  greedy_close (body ++ String close_brace post) = Some (body ++ String close_brace "").
Proof.
  intros Hpost. induction body as [|c body IH]; simpl.
  - rewrite (greedy_close_none post Hpost). reflexivity.
  - rewrite IH. reflexivity.
Qed.

Lemma greedy_close_inv (s m : string) :
  greedy_close s = Some m ->
  exists body post,
    s = body ++ String close_brace post /\ m = body ++ String close_brace "" /\
    has_char close_brace post = false.
Proof.
  revert m. induction s as [|c t IH]; simpl; intros m H; [discriminate|].
  destruct (greedy_close t) as [m'|] eqn:E.
  - injection H as <-. destruct (IH m' eq_refl) as (body & post & -> & -> & Hpost).
    exists (String c body), post. repeat split; auto.
  - destruct (Ascii.eqb c close_brace) eqn:Ec; [|discriminate].
    injection H as <-. apply Ascii.eqb_eq in Ec. subst c.
    exists "", t. repeat split.
    destruct (has_char close_brace t) eqn:Ht; [|reflexivity].
    destruct (greedy_close_some t Ht) as (m & Hm). congruence.
Qed.

Lemma has_char_append (c : ascii) (s t : string) :
  has_char c (s ++ t) = has_char c s || has_char c t.
Proof.
  induction s as [|c' s IH]; simpl; [reflexivity|]. rewrite IH. apply orb_assoc.
Qed.

Lemma json_match_first (pre rest : string) (m : string) :
  has_char open_brace pre = false ->
  match_here rest = Some m ->
  json_match (pre ++ rest) = Some m.
Proof.
  intros Hpre Hrest. induction pre as [|c pre IH]; simpl in *.
  - destruct rest; simpl in *; rewrite Hrest; reflexivity.
  - apply orb_false_iff in Hpre. destruct Hpre as [Hc Hpre].
    rewrite Hc. apply IH. exact Hpre.
Qed.

Lemma json_match_inv (s m : string) :
  json_match s = Some m ->
  exists pre body post,
    s = pre ++ braced body ++ post /\ m = braced body /\
    has_char open_brace pre = false /\ has_char close_brace post = false.
Proof.
  revert m. induction s as [|c t IH]; intros m H; [discriminate|].
  cbn [json_match] in H.
  destruct (match_here (String c t)) as [m'|] eqn:E.
  - injection H as <-. simpl in E.
    destruct (Ascii.eqb c open_brace) eqn:Ec; [|discriminate].
    apply Ascii.eqb_eq in Ec. subst c.
    destruct (greedy_close t) as [g|] eqn:Eg; [|discriminate].
    injection E as <-.
    destruct (greedy_close_inv t g Eg) as (body & post & -> & -> & Hpost).
    exists "", body, post. unfold braced. simpl.
    rewrite append_last. repeat split; auto.
  - destruct (IH m H) as (pre & body & post & -> & -> & Hpre & Hpost).
    exists (String c pre), body, post. simpl. repeat split; auto.
    rewrite Hpre, orb_false_r.
    destruct (Ascii.eqb c open_brace) eqn:Ec; [|reflexivity].
    exfalso. cbn [match_here] in E. rewrite Ec in E.
    destruct (greedy_close (pre ++ braced body ++ post)) as [g|] eqn:Eg;
      [discriminate|].
    assert (Hhas : has_char close_brace (pre ++ braced body ++ post) = true).
    { unfold braced. rewrite has_char_append. simpl. rewrite append_last.
      rewrite has_char_append. simpl. rewrite !orb_true_r. reflexivity. }
    destruct (greedy_close_some _ Hhas) as (g & Hg). congruence.
Qed.

Lemma json_match_none (s : string) :
  has_char open_brace s = false \/ has_char close_brace s = false ->
  json_match s = None.
Proof.
  induction s as [|c t IH]; intros H; [reflexivity|].
  cbn [json_match match_here]. simpl in H.
  destruct H as [H|H]; apply orb_false_iff in H; destruct H as [Hc Ht].
  - rewrite Hc. apply IH. left. exact Ht.
  - rewrite (greedy_close_none t Ht). simpl.
    destruct (Ascii.eqb c open_brace); apply IH; right; exact Ht.
Qed.

Lemma json_match_braced (pre body post : string) :
  has_char open_brace pre = false -> has_char close_brace post = false ->
  json_match (pre ++ braced body ++ post) = Some (braced body).
Proof.
  intros Hpre Hpost. apply json_match_first; [exact Hpre|].
  unfold braced. cbn [append match_here]. rewrite Ascii.eqb_refl.
  rewrite append_last, (greedy_close_last body post Hpost). reflexivity.
Qed.

Variable json : Type.
Variable JSON_parse : string -> string + json.
Variable analysis : Analysis.


End Extraction.




(** ** Sums of numbers *)

Lemma equiv_refl (x : number) : equiv x x.
Proof. destruct x; simpl; auto. reflexivity. Qed.

Lemma equiv_sym (x y : number) : equiv x y -> equiv y x.
Proof. destruct x, y; simpl; auto. intros H. symmetry. exact H. Qed.

Lemma equiv_trans (x y z : number) : equiv x y -> equiv y z -> equiv x z.
Proof.
  destruct x, y, z; simpl; auto; try contradiction.
  intros H1 H2. rewrite H1. exact H2.
Qed.

#[local] Instance equiv_Equivalence : Equivalence equiv.
Proof.
  split; [exact equiv_refl | exact equiv_sym | exact equiv_trans].
Qed.

#[local] Instance add_Proper : Proper (equiv ==> equiv ==> equiv) add.
Proof.
  intros x x' Hx y y' Hy.
  destruct x, x', y, y'; simpl in *; auto; try contradiction.
  rewrite !Qred_correct, Hx, Hy. reflexivity.
Qed.

Lemma add_comm (x y : number) : equiv (x + y) (y + x).
Proof.
  destruct x, y; simpl; auto. rewrite !Qred_correct. apply Qplus_comm.
Qed.

Lemma add_assoc (x y z : number) : equiv (x + y + z) (x + (y + z)).
Proof.
  destruct x, y, z; simpl; auto. rewrite !Qred_correct. symmetry. apply Qplus_assoc.
Qed.

Lemma add_shuffle (x v y : number) : equiv (x + v + y) (x + y + v).
Proof.
  rewrite add_assoc, (add_comm v y), <- add_assoc. reflexivity.
Qed.

Lemma add_canonical (x y : number) : canonical (x + y).
Proof. destruct x, y; simpl; auto. apply Qred_complete, Qred_correct. Qed.

Lemma canonical_eq (x y : number) :
  canonical x -> canonical y -> equiv x y -> x = y.
Proof.
  destruct x, y; simpl; try contradiction; try reflexivity.
  intros Hx Hy H. rewrite <- Hx, <- Hy. f_equal. apply Qred_complete. exact H.
Qed.

(** A finite sum has finite terms. *)
Lemma add_finite (x y : number) (t : Q) :
  (x + y)%num = Fin t -> exists a b, x = Fin a /\ y = Fin b /\ (t == a + b)%Q.
Proof.
  destruct x as [a| | |], y as [b| | |]; simpl; try discriminate.
  intros H. injection H as <-. exists a, b. repeat split. apply Qred_correct.
Qed.

(** ** The time-of-day buckets *)

Section Buckets.

Variable tz : Z -> Z.

Lemma local_hour_range (t : Z) : (0 <= local_hour tz t < 24)%Z.
Proof. unfold local_hour. apply Z.mod_pos_bound. lia. Qed.

Lemma Qle_bool_inject (x y : Z) : Qle_bool (inject_Z x) (inject_Z y) = (x <=? y)%Z.
Proof.
  destruct (x <=? y)%Z eqn:E.
  - apply Qle_bool_iff. rewrite <- Zle_Qle. apply Z.leb_le. exact E.
  - apply Qle_bool_false. rewrite <- Zlt_Qlt. apply Z.leb_gt. exact E.
Qed.

Lemma Qltb_inject (x y : Z) : Qltb (inject_Z x) (inject_Z y) = (x <? y)%Z.
Proof.
  unfold Qltb. rewrite Qle_bool_inject, Z.ltb_antisym. reflexivity.
Qed.

(** The bucket of a sample with a valid timestamp is the one whose range
    of hours holds its local hour. *)
Lemma slot_of_valid (t : Z) (v : number) :
  slot_of tz {| timestamp := Some t; value := v |} = hour_slot (local_hour tz t).
Proof.
  pose proof (local_hour_range t) as Hh.
  unfold slot_of, getHours, hour_slot, geb. cbn [timestamp].
  fold (local_hour tz t). unfold of_Z, zero. cbn [leb ltb].
  change 0%Q with (inject_Z 0). rewrite !Qle_bool_inject, !Qltb_inject.
  destruct (local_hour tz t <? 6)%Z eqn:E6.
  - assert ((0 <=? local_hour tz t)%Z = true) as -> by (apply Z.leb_le; lia).
    reflexivity.
  - rewrite andb_false_r.
    destruct (local_hour tz t <? 12)%Z eqn:E12.
    + assert ((6 <=? local_hour tz t)%Z = true) as -> by (apply Z.leb_le; lia).
      reflexivity.
    + rewrite andb_false_r.
      destruct (local_hour tz t <? 18)%Z eqn:E18; [|rewrite andb_false_r; reflexivity].
      assert ((12 <=? local_hour tz t)%Z = true) as -> by (apply Z.leb_le; lia).
      reflexivity.
Qed.

(** A sample without a valid timestamp has no hour and falls into the last
    branch. *)
Lemma slot_of_invalid (v : number) :
  slot_of tz {| timestamp := None; value := v |} = Evening.
Proof. reflexivity. Qed.

(** [add_sample] adds the value to the bucket of the sample and leaves the
    three others as they are. *)
Lemma add_sample_slot (s : TimeSlots) (d : LoadCurveData) (b : Slot) :
  get_slot b (add_sample tz s d)
  = if in_slot tz b d then (get_slot b s + value d)%num else get_slot b s.
Proof.
  unfold in_slot, slot_of, add_sample.
  destruct ((getHours tz (timestamp d) >=? zero)%num
            && (getHours tz (timestamp d) <? of_Z 6)%num);
    [destruct b; reflexivity|].
  destruct ((getHours tz (timestamp d) >=? of_Z 6)%num
            && (getHours tz (timestamp d) <? of_Z 12)%num);
    [destruct b; reflexivity|].
  destruct ((getHours tz (timestamp d) >=? of_Z 12)%num
            && (getHours tz (timestamp d) <? of_Z 18)%num);
    destruct b; reflexivity.
Qed.

(** A bucket holds the sum of the values of its samples. *)
Lemma fold_slot (b : Slot) (data : list LoadCurveData) (s : TimeSlots) :
  get_slot b (fold_left (add_sample tz) data s)
  = fold_left (fun sum d => (sum + value d)%num) (filter (in_slot tz b) data)
      (get_slot b s).
Proof.
  revert s. induction data as [|d data IH]; intros s; [reflexivity|].
  cbn [fold_left filter]. rewrite IH, add_sample_slot.
  destruct (in_slot tz b d); reflexivity.
Qed.

Lemma add_sample_sum (s : TimeSlots) (d : LoadCurveData) :
  equiv (slot_sum (add_sample tz s d)) (slot_sum s + value d).
Proof.
  unfold slot_sum, add_sample.
  destruct ((getHours tz (timestamp d) >=? zero)%num
            && (getHours tz (timestamp d) <? of_Z 6)%num).
  { cbn [night morning afternoon evening].
    rewrite (add_shuffle (night s)), (add_shuffle (night s + morning s)),
      (add_shuffle (night s + morning s + afternoon s)). reflexivity. }
  destruct ((getHours tz (timestamp d) >=? of_Z 6)%num
            && (getHours tz (timestamp d) <? of_Z 12)%num).
  { cbn [night morning afternoon evening].
    rewrite <- (add_assoc (night s)), (add_shuffle (night s + morning s)),
      (add_shuffle (night s + morning s + afternoon s)). reflexivity. }
  destruct ((getHours tz (timestamp d) >=? of_Z 12)%num
            && (getHours tz (timestamp d) <? of_Z 18)%num).
  { cbn [night morning afternoon evening].
    rewrite <- (add_assoc (night s + morning s)),
      (add_shuffle (night s + morning s + afternoon s)). reflexivity. }
  cbn [night morning afternoon evening].
  rewrite <- (add_assoc (night s + morning s + afternoon s)). reflexivity.
Qed.

Lemma fold_sum (data : list LoadCurveData) (s : TimeSlots) (total : number) :
  equiv (slot_sum s) total ->
  equiv (slot_sum (fold_left (add_sample tz) data s))
        (fold_left (fun sum d => (sum + value d)%num) data total).
Proof.
  revert s total. induction data as [|d data IH]; intros s total H; [exact H|].
  cbn [fold_left]. apply IH. rewrite add_sample_sum, H. reflexivity.
Qed.

Lemma total_canonical (data : list LoadCurveData) : canonical (total_of data).
Proof.
  unfold total_of.
  assert (H : forall acc, canonical acc ->
            canonical (fold_left (fun sum d => (sum + value d)%num) data acc)).
  { induction data as [|d data IH]; intros acc Hacc; [exact Hacc|].
    cbn [fold_left]. apply IH, add_canonical. }
  apply H. reflexivity.
Qed.

Lemma slots_sum_total (data : list LoadCurveData) :
  slot_sum (time_slots tz data) = total_of data.
Proof.
  apply canonical_eq.
  - apply add_canonical.
  - apply total_canonical.
  - apply fold_sum. reflexivity.
Qed.

Lemma shares_sum (data : list LoadCurveData) (t : Q) :
  total_of data = Fin t -> ~ (t == 0)%Q ->
  slot_sum (percentages (time_slots tz data) (total_of data)) = of_Z 100.
Proof.
  intros Htotal Ht. pose proof (slots_sum_total data) as Hsum.
  rewrite Htotal in *. unfold slot_sum in Hsum.
  destruct (add_finite _ _ _ Hsum) as (x & e & Hx & He & Et).
  destruct (add_finite _ _ _ Hx) as (y & a & Hy & Ha & Ex).
  destruct (add_finite _ _ _ Hy) as (n & m & Hn & Hm & Ey).
  unfold slot_sum, percentages. cbn [night morning afternoon evening].
  rewrite Hn, Hm, Ha, He. unfold of_Z. cbn [div].
  assert (Qeq_bool t 0 = false) as -> by (apply Qeq_bool_false; exact Ht).
  cbn [mul add]. apply canonical_eq.
  - simpl. apply Qred_complete, Qred_correct.
  - reflexivity.
  - simpl. rewrite !Qred_correct. unfold inject_Z.
    rewrite Et, Ex, Ey. field. rewrite <- Ey, <- Ex, <- Et. exact Ht.
Qed.


End Buckets.


(** ** The day span *)

Section DaySpan.

Variable Date_parse : string -> Date.
Variable tz : Z -> Z.
Variable json : Type.
Variable JSON_parse : string -> string + json.

Lemma days_diff_same (t : Z) : days_diff (Some t) (Some t) = zero.
Proof.
  unfold days_diff, getTime, of_Z, zero. cbn [sub].
  assert (Qred (inject_Z t - inject_Z t) = 0%Q) as ->.
  { rewrite (Qred_eq _ 0); [reflexivity | ring]. }
  reflexivity.
Qed.

Lemma div_zero_not_finite (x : number) : is_finite (x / zero) = false.
Proof.
  destruct x as [a| | |]; try reflexivity. unfold zero. cbn [div].
  change (Qeq_bool 0 0) with true. cbv iota.
  destruct (0 ?= a)%Q; reflexivity.
Qed.


End DaySpan.


(** ** Rows whose value is not a number *)

Section Csv.

Variable Date_parse : string -> Date.
Variable tz : Z -> Z.

Lemma split_field (v : string) :
  has_char comma v = false -> split comma v = [v].
Proof.
  induction v as [|c v IH]; simpl; intros H; [reflexivity|].
  apply orb_false_iff in H. destruct H as [Hc Hv]. rewrite Hc, (IH Hv). reflexivity.
Qed.

Lemma split_fields (ts v : string) :
  has_char comma ts = false ->
  exists rest, split comma (ts ++ String comma v) = ts :: rest /\ hd "" rest = hd "" (split comma v).
Proof.
  intros H. induction ts as [|c ts IH]; simpl in *.
  - eexists. split; reflexivity.
  - apply orb_false_iff in H. destruct H as [Hc Hts]. rewrite Hc.
    destruct (IH Hts) as (rest & -> & Hrest). exists rest. split; [reflexivity | exact Hrest].
Qed.

Lemma total_nan (data : list LoadCurveData) (d : LoadCurveData) :
  In d data -> value d = NaN -> total_of data = NaN.
Proof.
  unfold total_of. intros Hin Hd.
  assert (Hnan : forall l, fold_left (fun sum x => (sum + value x)%num) l NaN = NaN).
  { induction l as [|x l IH]; [reflexivity|exact IH]. }
  generalize zero. induction data as [|x data IH]; intros acc; [contradiction|].
  cbn [fold_left]. destruct Hin as [->|Hin].
  - rewrite Hd. destruct acc; apply Hnan.
  - apply IH. exact Hin.
Qed.

Lemma peak_nan (data : list LoadCurveData) (d : LoadCurveData) :
  In d data -> value d = NaN -> math_max (map value data) = NaN.
Proof.
  intros Hin Hd. unfold math_max. apply fold_max_nan. cbn [existsb is_nan orb].
  apply existsb_exists. exists NaN. split; [|reflexivity].
  rewrite <- Hd. apply in_map. exact Hin.
Qed.


End Csv.


(** ** Examples *)



Lemma trade_recorded_witness :
  exists a u q m x row,
    assetId (request "buy" 30 150) = Some a /\ userId (request "buy" 30 150) = Some u /\
    percentage (request "buy" 30 150) = Some (Fin q) /\
    mode (request "buy" 30 150) = Some m /\
    pricePerPercent (request "buy" 30 150) = Some (Fin x) /\
    transactions (snd (execute_trade no_faults (request "buy" 30 150) sample_db))
    = (transactions sample_db ++ [row])%list /\
    tx_asset_id row = a /\ transaction_type row = m /\
    ((m = "buy" /\ buyer_id row = Some u /\ seller_id row = None) \/
     (m = "sell" /\ seller_id row = Some u /\ buyer_id row = None)) /\
    percent_traded row = Fin q /\ price_per_percent row = Fin x /\
    total_price row = (Fin q * Fin x)%num /\
    exists t, total_price row = Fin t /\ (t == q * x)%Q.
Proof.
  apply (trade_recorded no_faults (request "buy" 30 150) sample_db
           (snd (execute_trade no_faults (request "buy" 30 150) sample_db)) (of_Z 30)).
  reflexivity.
Defined.

(** * Further properties of the trade handler *)

Import Flight.

Section Phases.

Variable f : Faults.

(** The handler is its two halves one after the other. *)
Lemma trade_prepare_commit (req : Request) (db : Database) :
  trade f req db = bind (prepare f req) (commit f) db.
Proof.
  unfold trade, prepare, commit, settle.
  destruct (assetId req) as [a|]; [|reflexivity].
  destruct (userId req) as [u|]; [|reflexivity].
  destruct (percentage req) as [p|]; [|reflexivity].
  destruct (mode req) as [m|]; [|reflexivity].
  destruct (pricePerPercent req) as [ppp|]; [|reflexivity].
  unfold bind, check, read, lift, throw, ret.
  destruct (missing a u p m ppp); [reflexivity|].
  destruct (invalid_percentage p); [reflexivity|].
  destruct (select_ownership f u a db) as [o [|]]; [reflexivity|].
  destruct (new_percent m (current_percent o) p); reflexivity.
Qed.

(** The first half reads and never writes. *)
Lemma prepare_reads (req : Request) (db : Database) :
  snd (prepare f req db) = db.
Proof.
  unfold prepare.
  destruct (assetId req) as [a|]; [|reflexivity].
  destruct (userId req) as [u|]; [|reflexivity].
  destruct (percentage req) as [p|]; [|reflexivity].
  destruct (mode req) as [m|]; [|reflexivity].
  destruct (pricePerPercent req) as [ppp|]; [|reflexivity].
  unfold bind, check, read, lift, throw, ret.
  destruct (missing a u p m ppp); [reflexivity|].
  destruct (invalid_percentage p); [reflexivity|].
  destruct (select_ownership f u a db) as [o [|]]; [reflexivity|].
  destruct (new_percent m (current_percent o) p); reflexivity.
Qed.

End Phases.

(** ** The shape of the store after a request *)

Section Shape.

Variable f : Faults.

Lemma write_ownership_failed (u a : uuid) (o : option OwnershipRow) (np : number)
    (db db1 : Database) (msg : string) :
  write_ownership f u a o np db = (inl msg, db1) ->
  db1 = db /\ (msg = "Failed to update ownership" \/ msg = "Failed to create ownership").
Proof.
  rewrite write_ownership_run.
  unfold delete_ownership, update_ownership, insert_ownership.
  destruct (np === zero)%num.
  - destruct (write_fails f); intros E; inversion E; auto.
  - destruct o.
    + destruct (write_fails f); [intros E; inversion E; auto|].
      destruct (existsb (matches u a) (user_assets db) && negb (check_percent np));
        intros E; inversion E; auto.
    + destruct (write_fails f); [intros E; inversion E; auto|].
      destruct (known u (profiles db) && known a (assets db) && check_percent np
                && negb (existsb (matches u a) (user_assets db)));
        intros E; inversion E; auto.
Qed.

Lemma record_failed (row : TransactionRow) (db db' : Database) :
  insert_transaction f row db = (true, db') -> db' = db.
Proof.
  unfold insert_transaction. destruct (record_fails f); [intros E; inversion E; auto|].
  match goal with |- context [if ?b then _ else _] => destruct b end;
    intros E; inversion E; auto.
Qed.

(** After a request the store is as it was, or holds the written ownership
    without a transaction (the insertion of the transaction failed), or
    holds the written ownership and the transaction (the request
    succeeded). *)
Lemma execute_trade_shape (req : Request) (db db' : Database) (resp : Response) :
  execute_trade f req db = (resp, db') ->
  (db' = db /\ exists msg, resp = Err400 msg /\ msg <> "Failed to record transaction") \/
  (exists a u p m ppp o np,
     assetId req = Some a /\ userId req = Some u /\ percentage req = Some p /\
     mode req = Some m /\ pricePerPercent req = Some ppp /\
     select_ownership f u a db = (o, false) /\
     new_percent m (current_percent o) p = inr np /\
     ((resp = Err400 "Failed to record transaction" /\
       db' = with_user_assets db (written u a o np (user_assets db))) \/
      (resp = Ok200 np /\
       db' = with_transactions
               (with_user_assets db (written u a o np (user_assets db)))
               (transactions db ++ [trade_record a u p m ppp])))).
Proof.
  unfold execute_trade.
  destruct (assetId req) as [a|] eqn:Ea;
    [|rewrite trade_absent by auto; intros E; injection E as <- <-; left;
      split; [reflexivity|]; eexists; split; [reflexivity | discriminate]].
  destruct (userId req) as [u|] eqn:Eu;
    [|rewrite trade_absent by auto; intros E; injection E as <- <-; left;
      split; [reflexivity|]; eexists; split; [reflexivity | discriminate]].
  destruct (percentage req) as [p|] eqn:Ep;
    [|rewrite trade_absent by auto; intros E; injection E as <- <-; left;
      split; [reflexivity|]; eexists; split; [reflexivity | discriminate]].
  destruct (mode req) as [m|] eqn:Em;
    [|rewrite trade_absent by auto; intros E; injection E as <- <-; left;
      split; [reflexivity|]; eexists; split; [reflexivity | discriminate]].
  destruct (pricePerPercent req) as [ppp|] eqn:Eppp;
    [|rewrite trade_absent by auto 6; intros E; injection E as <- <-; left;
      split; [reflexivity|]; eexists; split; [reflexivity | discriminate]].
  rewrite (trade_run f req db a u p m ppp Ea Eu Ep Em Eppp).
  destruct (missing a u p m ppp);
    [intros E; injection E as <- <-; left;
     split; [reflexivity|]; eexists; split; [reflexivity | discriminate]|].
  destruct (invalid_percentage p);
    [intros E; injection E as <- <-; left;
     split; [reflexivity|]; eexists; split; [reflexivity | discriminate]|].
  rewrite settle_run.
  destruct (select_ownership f u a db) as [o [|]] eqn:Hsel;
    [intros E; injection E as <- <-; left;
     split; [reflexivity|]; eexists; split; [reflexivity | discriminate]|].
  destruct (new_percent m (current_percent o) p) as [msg|np] eqn:Hnew.
  { intros E. injection E as <- <-. left. split; [reflexivity|].
    eexists. split; [reflexivity|].
    destruct (new_percent_message _ _ _ _ Hnew) as [-> | ->]; discriminate. }
  destruct (write_ownership f u a o np db) as [[msg|[]] db1] eqn:Hw.
  { intros E. injection E as <- <-.
    destruct (write_ownership_failed u a o np db db1 msg Hw) as [-> Hmsg].
    left. split; [reflexivity|]. eexists. split; [reflexivity|].
    destruct Hmsg as [-> | ->]; discriminate. }
  apply write_ownership_done in Hw. subst db1.
  destruct (insert_transaction f (trade_record a u p m ppp)
              (with_user_assets db (written u a o np (user_assets db))))
    as [[|] db2] eqn:Hrec; intros E; injection E as <- <-; right;
    exists a, u, p, m, ppp, o, np; repeat (split; [reflexivity || assumption|]).
  - left. split; [reflexivity|]. exact (record_failed _ _ _ Hrec).
  - right. split; [reflexivity|]. apply record_done in Hrec. tauto.
Qed.

(** A write for a pair leaves the rows of every other pair as they are. *)
Lemma written_other (u a u' a' : uuid) (o : option OwnershipRow) (np : number)
    (rows : list OwnershipRow) :
  (u', a') <> (u, a) ->
  filter (matches u' a') (written u a o np rows) = filter (matches u' a') rows.
Proof.
  intros Hne.
  assert (Hex : forall r, matches u' a' r = true -> matches u a r = false).
  { intros r H'. destruct (matches u a r) eqn:H; [|reflexivity].
    apply key_matches in H, H'. congruence. }
  unfold written. destruct (np === zero)%num.
  - induction rows as [|r rows IH]; simpl; [reflexivity|].
    destruct (matches u a r) eqn:E; simpl.
    + destruct (matches u' a' r) eqn:E'; [|exact IH].
      rewrite (Hex r E') in E. discriminate.
    + rewrite IH. reflexivity.
  - destruct o.
    + induction rows as [|r rows IH]; simpl; [reflexivity|].
      rewrite matches_set_percent, IH.
      destruct (matches u' a' r) eqn:E'; [|reflexivity].
      unfold set_percent. rewrite (Hex r E'). reflexivity.
    + rewrite filter_app. simpl.
      destruct (matches u' a' {| user_id := u; asset_id := a; ownership_percent := np |})
        eqn:E'; [|apply app_nil_r].
      apply Hex in E'. rewrite matches_self in E'. discriminate.
Qed.

End Shape.

(** X1.  A request answered with an error other than the failure to record
    the transaction leaves the store exactly as it was: a failed validation,
    a failed read, a refused overbuy or oversell, and a failed write of the
    ownership change nothing. *)
Theorem rejection_leaves_store (f : Faults) (req : Request) (db db' : Database)
    (msg : string) :
  execute_trade f req db = (Err400 msg, db') ->
  msg <> "Failed to record transaction" ->
  db' = db.
Proof.
  intros Hrun Hmsg.
  destruct (execute_trade_shape f req db db' _ Hrun)
    as [[E _] | (a & u & p & m & ppp & o & np & _ & _ & _ & _ & _ & _ & _ & H)];
    [exact E|].
  destruct H as [[E _] | [E _]]; [|discriminate].
  injection E as E. contradiction.
Qed.

Lemma rejection_leaves_store_witness :
  snd (execute_trade no_faults (request "buy" 60 150) (holding (of_Z 50)))
  = holding (of_Z 50).
Proof.
  apply (rejection_leaves_store no_faults (request "buy" 60 150) (holding (of_Z 50))
           (snd (execute_trade no_faults (request "buy" 60 150) (holding (of_Z 50))))
           "Cannot own more than 100% of an asset").
  - reflexivity.
  - discriminate.
Defined.

(** X2.  A request never changes the assets nor the profiles, and it leaves
    the rows of ownership of every pair other than its own (user, asset)
    pair as they are, whatever its outcome. *)
Theorem trade_frame (f : Faults) (req : Request) (db : Database) :
  let db' := snd (execute_trade f req db) in
  assets db' = assets db /\ profiles db' = profiles db /\
  (forall a u u' a',
     assetId req = Some a -> userId req = Some u -> (u', a') <> (u, a) ->
     filter (matches u' a') (user_assets db') = filter (matches u' a') (user_assets db)) /\
  (assetId req = None \/ userId req = None -> db' = db).
Proof.
  intros db'. subst db'.
  destruct (execute_trade f req db) as [resp db'] eqn:Hrun. cbn [snd].
  destruct (execute_trade_shape f req db db' resp Hrun)
    as [[-> _] | (a & u & p & m & ppp & o & np & Ea & Eu & _ & _ & _ & _ & _ & H)].
  - repeat split; reflexivity.
  - assert (Hrows : user_assets db' = written u a o np (user_assets db)
                    /\ assets db' = assets db /\ profiles db' = profiles db).
    { destruct H as [[_ ->] | [_ ->]]; repeat split. }
    destruct Hrows as (Hrows & Hassets & Hprofiles).
    split; [exact Hassets|]. split; [exact Hprofiles|]. split.
    + intros a0 u0 u' a' Ea0 Eu0 Hne. rewrite Ea in Ea0. rewrite Eu in Eu0.
      injection Ea0 as <-. injection Eu0 as <-.
      rewrite Hrows. apply written_other. exact Hne.
    + intros [E|E]; congruence.
Qed.

(** X3.  The transaction log is append-only: after a request the log is the
    log before it followed by at most one row, and a row is appended exactly
    when the request is answered with a success. *)
Theorem log_append_only (f : Faults) (req : Request) (db : Database) :
  exists suffix,
    transactions (snd (execute_trade f req db)) = (transactions db ++ suffix)%list /\
    (List.length suffix <= 1)%nat /\
    (suffix <> [] <-> exists np, fst (execute_trade f req db) = Ok200 np).
Proof.
  destruct (execute_trade f req db) as [resp db'] eqn:Hrun. cbn [fst snd].
  destruct (execute_trade_shape f req db db' resp Hrun)
    as [[-> (msg & -> & _)] | (a & u & p & m & ppp & o & np & _ & _ & _ & _ & _ & _ & _ & H)].
  - exists []. rewrite app_nil_r. split; [reflexivity|]. split; [simpl; lia|].
    split; [congruence | intros (np & E); discriminate].
  - destruct H as [[-> ->] | [-> ->]].
    + exists []. rewrite app_nil_r. split; [reflexivity|]. split; [simpl; lia|].
      split; [congruence | intros (np' & E); discriminate].
    + exists [trade_record a u p m ppp]. split; [reflexivity|]. split; [simpl; lia|].
      split; [eauto | discriminate].
Qed.

Lemma trade_frame_witness :
  filter (matches "bob" "solar-farm-alpha")
    (user_assets (snd (execute_trade no_faults (request "buy" 30 150) (holding (of_Z 50)))))
  = filter (matches "bob" "solar-farm-alpha") (user_assets (holding (of_Z 50))).
Proof.
  apply (proj1 (proj2 (proj2
           (trade_frame no_faults (request "buy" 30 150) (holding (of_Z 50)))))
           "solar-farm-alpha" "alice" "bob" "solar-farm-alpha");
    [reflexivity | reflexivity | discriminate].
Defined.

(** ** Buying and selling *)

Section Trades.

Variables a u : uuid.
Hypothesis asset_given : a <> "".
Hypothesis user_given : u <> "".

(** A buy or a sell the business rule accepts, served without fault: the
    answer and the store after it. *)
Lemma trade_accepted (db : Database) (m : string) (c q : Q) (ppp : number) :
  check_type m = true ->
  owns u a db c -> registered u a db -> order_ok (q, ppp) ->
  (0 <= settled m c q)%Q -> (settled m c q <= 100)%Q ->
  exists o,
    select_ownership no_faults u a db = (o, false) /\
    let np := Fin (Qred (settled m c q)) in
    let db' :=
      with_transactions (with_user_assets db (written u a o np (user_assets db)))
        (transactions db ++ [trade_record a u (Fin q) m ppp]) in
    execute_trade no_faults (other a u m q ppp) db = (Ok200 np, db') /\
    owns u a db' (settled m c q) /\ registered u a db'.
Proof.
  intros Hm Hown Hreg Hok Hn0 Hn100.
  assert (Hmne : m <> "").
  { intros ->. discriminate. }
  destruct (order_valid a u asset_given user_given q m ppp Hok Hmne) as [Emiss Einv].
  pose proof Hok as (Hq0 & Hq100 & _). simpl in Hq0, Hq100.
  destruct (owns_select u a db c Hown) as (o & Hsel & Hcur & Hnone & Hsome).
  exists o. split; [exact Hsel|]. cbv zeta.
  assert (Hnew : new_percent m (Fin (Qred c)) (Fin q) = inr (Fin (Qred (settled m c q)))).
  { unfold new_percent, settled, gtb in *. destruct (String.eqb m "buy"); simpl.
    - rewrite Qred_add_l.
      assert (Qltb (inject_Z 100) (Qred (c + q)) = false) as ->; [|reflexivity].
      apply Qltb_false. rewrite Qred_correct. exact Hn100.
    - assert (Qltb (Qred c) q = false) as ->
        by (apply Qltb_false; rewrite Qred_correct; lra).
      f_equal. f_equal. apply Qred_eq. rewrite Qred_correct. reflexivity. }
  destruct (write_ownership_accepted no_faults u a o (Fin (Qred (settled m c q))) db
              eq_refl) as (db1 & Hw).
  { destruct (zero_or_in_range _ Hn0 Hn100) as [[Hz _] | (_ & Hchk & _)];
      [left; exact Hz | right]. split; [exact Hchk|].
    intros ->. split; [exact Hreg|].
    destruct (Hnone eq_refl) as [_ Hrows]. apply filter_nil_existsb. exact Hrows. }
  pose proof (write_ownership_done no_faults u a o _ db db1 Hw) as ->.
  unfold execute_trade.
  rewrite (trade_run no_faults _ db a u (Fin q) m ppp) by reflexivity.
  rewrite Emiss, Einv, settle_run, Hsel, Hcur, Hnew, Hw.
  rewrite (record_accepted a u _ q m ppp); [| exact Hreg | exact Hok | exact Hm].
  split; [reflexivity|]. split; [|exact Hreg].
  unfold owns. cbn [user_assets with_transactions with_user_assets].
  rewrite (written_rows no_faults u a o _ db Hsel).
  destruct (zero_or_in_range _ Hn0 Hn100) as [[Hz _] | (Hz & _ & Hpos)]; rewrite Hz.
  - left. split; [reflexivity|]. cbn [eqb zero] in Hz.
    apply Qeq_bool_iff in Hz. rewrite Qred_correct in Hz. exact Hz.
  - right. eexists. split; [reflexivity|]. split; [reflexivity|]. split; assumption.
Qed.

Lemma filter_none_keeps (rows : list OwnershipRow) :
  filter (matches u a) rows = [] ->
  filter (fun r => negb (matches u a r)) rows = rows.
Proof.
  induction rows as [|r rows IH]; simpl; [reflexivity|].
  destruct (matches u a r); [discriminate|]. simpl. intros H. rewrite (IH H). reflexivity.
Qed.

Lemma set_percent_twice (p p' : number) (r : OwnershipRow) :
  set_percent u a p (set_percent u a p' r) = set_percent u a p r.
Proof.
  unfold set_percent. destruct (matches u a r) eqn:E; [|rewrite E; reflexivity].
  unfold matches in *. simpl. rewrite E. reflexivity.
Qed.

Lemma set_percent_same (p : number) (rows : list OwnershipRow) (r0 : OwnershipRow) :
  filter (matches u a) rows = [r0] -> ownership_percent r0 = p ->
  map (set_percent u a p) rows = rows.
Proof.
  intros Hrows Hp. rewrite <- (map_id rows) at 2. apply map_ext_in. intros r Hin.
  unfold set_percent. destruct (matches u a r) eqn:E; [|reflexivity].
  assert (Hr : In r (filter (matches u a) rows)) by (apply filter_In; auto).
  rewrite Hrows in Hr. destruct Hr as [<-|[]]. rewrite <- Hp. destruct r0; reflexivity.
Qed.


End Trades.


Section Edges.

Variables a u : uuid.
Hypothesis asset_given : a <> "".
Hypothesis user_given : u <> "".

(** X5.  A user without a row for an asset cannot sell it: every request of
    that user for that asset whose mode is not buy is answered with
    [Insufficient ownership to sell] and changes nothing. *)
Theorem sell_without_holding (db : Database) (m : string) (q : Q) (ppp : number) :
  filter (matches u a) (user_assets db) = [] ->
  m <> "" -> m <> "buy" -> order_ok (q, ppp) ->
  execute_trade no_faults (other a u m q ppp) db
  = (Err400 "Insufficient ownership to sell", db).
Proof.
  intros Hrows Hm Hbuy Hok.
  destruct (order_valid a u asset_given user_given q m ppp Hok Hm) as [Emiss Einv].
  destruct Hok as (Hq0 & _). simpl in Hq0.
  unfold execute_trade.
  rewrite (trade_run no_faults _ db a u (Fin q) m ppp) by reflexivity.
  rewrite Emiss, Einv, settle_run. unfold select_ownership.
  cbn [fetch_fails no_faults]. rewrite Hrows. cbn [current_percent].
  unfold new_percent. apply String.eqb_neq in Hbuy. rewrite Hbuy.
  unfold zero. cbn [ltb].
  assert (Qltb 0 q = true) as -> by (apply Qltb_true; exact Hq0).
  reflexivity.
Qed.

(** X6.  The validation reads a percentage or a price of zero as a missing
    field: a request with all its fields whose percentage or price per
    percent is 0 or NaN is answered with [Missing required fields]; with
    both other than zero, a percentage that is negative or above 100 is
    answered with [Invalid percentage].  Neither reaches the store. *)
Theorem validation_of_numbers (f : Faults) (db : Database) (m : string)
    (p ppp : number) :
  let req := {| assetId := Some a; userId := Some u; percentage := Some p;
                mode := Some m; pricePerPercent := Some ppp |} in
  (truthy p = false \/ truthy ppp = false ->
   execute_trade f req db = (Err400 "Missing required fields", db)) /\
  (m <> "" -> truthy p = true -> truthy ppp = true ->
   (p <? zero)%num = true \/ (of_Z 100 <? p)%num = true ->
   execute_trade f req db = (Err400 "Invalid percentage", db)).
Proof.
  intros req. split.
  - intros H. unfold execute_trade.
    rewrite (trade_run f req db a u p m ppp) by reflexivity.
    assert (missing a u p m ppp = true) as ->; [|reflexivity].
    unfold missing. destruct H as [-> | ->]; simpl;
      rewrite ?orb_true_r; reflexivity.
  - intros Hm Hp Hppp Hbad. unfold execute_trade.
    rewrite (trade_run f req db a u p m ppp) by reflexivity.
    assert (missing a u p m ppp = false) as ->.
    { unfold missing. rewrite (truthy_given a asset_given), (truthy_given u user_given),
        (truthy_given m Hm), Hp, Hppp. reflexivity. }
    assert (invalid_percentage p = true) as ->; [|reflexivity].
    unfold invalid_percentage, gtb. destruct Hbad as [H | ->]; [|apply orb_true_r].
    apply orb_true_iff. left.
    destruct p as [x| | |]; simpl in *; try discriminate; try reflexivity.
    apply Qle_bool_iff. apply Qltb_true in H. lra.
Qed.

End Edges.

Lemma sell_without_holding_witness :
  execute_trade no_faults (other "solar-farm-alpha" "alice" "sell" 10 (of_Z 150)) sample_db
  = (Err400 "Insufficient ownership to sell", sample_db).
Proof.
  apply (sell_without_holding "solar-farm-alpha" "alice"); try discriminate.
  - reflexivity.
  - repeat split; try reflexivity; simpl; lra.
Defined.

Lemma validation_of_numbers_witness :
  execute_trade no_faults (request "buy" 30 0) sample_db
  = (Err400 "Missing required fields", sample_db) /\
  execute_trade no_faults (request "buy" 130 150) sample_db
  = (Err400 "Invalid percentage", sample_db).
Proof.
  split.
  - apply (proj1 (validation_of_numbers "solar-farm-alpha" "alice" ltac:(discriminate)
                    ltac:(discriminate) no_faults sample_db "buy" (of_Z 30) (of_Z 0))).
    right. reflexivity.
  - apply (proj2 (validation_of_numbers "solar-farm-alpha" "alice" ltac:(discriminate)
                    ltac:(discriminate) no_faults sample_db "buy" (of_Z 130) (of_Z 150)));
      try reflexivity; [discriminate | right; reflexivity].
Defined.

(** ** Several owners, and requests in flight together *)

Section Owners.

Variables a u1 u2 : uuid.
Hypothesis asset_given : a <> "".
Hypothesis first_given : u1 <> "".
Hypothesis second_given : u2 <> "".

Lemma ownership_rows (db db' : Database) (u : uuid) :
  filter (matches u a) (user_assets db') = filter (matches u a) (user_assets db) ->
  ownership db' u a = ownership db u a.
Proof.
  intros H. unfold ownership, select_ownership. cbn [fetch_fails no_faults].
  rewrite H. reflexivity.
Qed.


End Owners.


Section InFlight.

Variables a u : uuid.
Hypothesis asset_given : a <> "".
Hypothesis user_given : u <> "".

Lemma commit_run (f : Faults) (s : Pending) (db : Database) :
  commit f s db =
    match write_ownership f (p_user s) (p_asset s) (p_current s) (p_new s) db with
    | (inl msg, db1) => (inl msg, db1)
    | (inr _, db1) =>
        let (err, db2) :=
          insert_transaction f
            (trade_record (p_asset s) (p_user s) (p_percentage s) (p_mode s) (p_price s))
            db1 in
        if err then (inl "Failed to record transaction", db2)
        else (inr (p_new s), db2)
    end.
Proof.
  unfold commit, bind, write, ret.
  destruct (write_ownership f (p_user s) (p_asset s) (p_current s) (p_new s) db)
    as [[msg|[]] db1]; [reflexivity|].
  destruct (insert_transaction f _ db1) as [[|] db2]; reflexivity.
Qed.

(** What a buy holds after its read. *)
Lemma prepare_buy (db : Database) (c q : Q) (ppp : number) :
  owns u a db c -> order_ok (q, ppp) -> (c + q <= 100)%Q ->
  exists o,
    select_ownership no_faults u a db = (o, false) /\
    prepare no_faults (buy a u (Fin q) ppp) db
    = (inr {| p_asset := a; p_user := u; p_percentage := Fin q; p_mode := "buy";
              p_price := ppp; p_current := o; p_new := Fin (Qred (c + q)) |}, db).
Proof.
  intros Hown Hok Hsum.
  destruct (order_valid a u asset_given user_given q "buy" ppp Hok) as [Emiss Einv];
    [discriminate|].
  destruct (owns_select u a db c Hown) as (o & Hsel & Hcur & _).
  exists o. split; [exact Hsel|].
  unfold prepare, buy. cbn [assetId userId percentage mode pricePerPercent].
  unfold bind, check, read, lift, throw, ret. rewrite Emiss, Einv, Hsel, Hcur.
  unfold new_percent, gtb. simpl. rewrite Qred_add_l.
  assert (Qltb (inject_Z 100) (Qred (c + q)) = false) as ->; [|reflexivity].
  apply Qltb_false. rewrite Qred_correct. exact Hsum.
Qed.



End InFlight.



(** * Properties of the pages *)

Section Dialog.

Import Client.

Variable a : Asset.
Variable u : uuid.
Hypothesis asset_given : id a <> "".
Hypothesis user_given : u <> "".

(** What passes the checks of the dialog is the number typed, in
    (0, 100], and for a sell at most the ownership the dialog was given. *)
Lemma checked_passes (mode : Mode) (s : string) (cur percent : number) :
  checked mode s cur = inr percent ->
  percent = Curve.parseFloat s /\
  (mode = Sell -> (percent >? cur)%num = false) /\
  exists q, percent = Fin q /\ (0 < q)%Q /\ (q <= 100)%Q.
Proof.
  unfold checked.
  destruct (is_nan (Curve.parseFloat s) || (Curve.parseFloat s <=? zero)%num) eqn:E1;
    [discriminate|].
  destruct (is_sell mode && (Curve.parseFloat s >? cur)%num) eqn:E2; [discriminate|].
  destruct (Curve.parseFloat s >? of_Z 100)%num eqn:E3; [discriminate|].
  intros H. injection H as <-. split; [reflexivity|]. split.
  - intros ->. exact E2.
  - apply orb_false_iff in E1. destruct E1 as [Hnan Hle].
    unfold gtb in E3.
    destruct (Curve.parseFloat s) as [q| | |]; simpl in *; try discriminate.
    exists q. split; [reflexivity|]. split.
    + apply Qle_bool_false. exact Hle.
    + apply Qltb_false. exact E3.
Qed.




End Dialog.




Section Marketplace.

Import Client.

Variable u : uuid.

Lemma getUserOwnership_lookup (userAssets : list UserAsset) (a : string) :
  getUserOwnership userAssets a
  = lookup a (map (fun ua => (asset_id ua, ownership_percent ua)) userAssets).
Proof.
  unfold getUserOwnership, lookup.
  induction userAssets as [|ua l IH]; simpl; [reflexivity|].
  destruct (String.eqb (asset_id ua) a); [reflexivity | exact IH].
Qed.

Lemma lookup_rows (rows : list OwnershipRow) (a : string) :
  lookup a (map (fun r => (Ledger.asset_id r, Ledger.ownership_percent r))
              (filter (fun r => String.eqb (user_id r) u) rows))
  = match filter (matches u a) rows with
    | [] => zero
    | r :: _ => Ledger.ownership_percent r
    end.
Proof.
  unfold lookup. induction rows as [|r rows IH]; simpl; [reflexivity|].
  unfold matches at 1. destruct (String.eqb (user_id r) u); simpl; [|exact IH].
  destruct (String.eqb (Ledger.asset_id r) a); [reflexivity | exact IH].
Qed.

(** X13.  When the rows the marketplace holds mirror the rows of the user in
    a well-formed table, [getUserOwnership] gives for every asset the
    ownership the handler reads, and the Sell button of an asset is offered
    exactly when the user has a row for it. *)
Theorem marketplace_shows_ownership (userAssets : list UserAsset) (db : Database)
    (a : Asset) :
  mirrors userAssets u db -> well_formed db ->
  getUserOwnership userAssets (id a) = ownership db u (id a) /\
  (sell_offered userAssets a = true <->
   exists r, filter (matches u (id a)) (user_assets db) = [r]).
Proof.
  intros Hmirror [Hnd Hall].
  assert (Hget : getUserOwnership userAssets (id a)
                 = match filter (matches u (id a)) (user_assets db) with
                   | [] => zero
                   | r :: _ => Ledger.ownership_percent r
                   end).
  { rewrite getUserOwnership_lookup, Hmirror. apply lookup_rows. }
  unfold sell_offered. rewrite Hget.
  unfold ownership, select_ownership. cbn [fetch_fails no_faults].
  destruct (filter_unique u (id a) (user_assets db) Hnd) as [E | (r & E)]; rewrite E.
  - split; [reflexivity|]. split; [discriminate | intros (r & Hr); discriminate].
  - split; [reflexivity|]. split; [intros _; exists r; reflexivity|]. intros _.
    assert (Hin : In r (user_assets db)).
    { assert (In r (filter (matches u (id a)) (user_assets db))) as H
        by (rewrite E; left; reflexivity).
      apply filter_In in H. tauto. }
    rewrite Forall_forall in Hall. destruct (Hall r Hin) as (q & -> & Hq0 & _).
    unfold gtb, zero. cbn [ltb]. apply Qltb_true. exact Hq0.
Qed.

End Marketplace.

Lemma marketplace_shows_ownership_witness :
  Client.getUserOwnership [Client.solar_share (of_Z 50)] "solar-farm-alpha"
  = ownership (holding (of_Z 50)) "alice" "solar-farm-alpha".
Proof.
  apply (marketplace_shows_ownership "alice" [Client.solar_share (of_Z 50)]
           (holding (of_Z 50)) Client.solar_farm).
  - reflexivity.
  - split.
    + simpl. repeat constructor. simpl. tauto.
    + repeat constructor. simpl. exists 50. repeat split; lra.
Defined.

Section History.

Import Client.

Lemma party_same (u : uuid) : party u (Some u) = true.
Proof. simpl. apply String.eqb_refl. Qed.

Lemma party_other (u u' : uuid) : u' <> u -> party u' (Some u) = false.
Proof. intros H. simpl. apply String.eqb_neq. congruence. Qed.

(** X14.  The row a successful trade appends to the log is selected by the
    history of the acting user and by the history of no other user: the
    history of the acting user gains exactly that row, and every other
    history is unchanged. *)
Theorem history_gains_own_trade (f : Faults) (req : Request) (db db' : Database)
    (np : number) (u : uuid) :
  execute_trade f req db = (Ok200 np, db') -> userId req = Some u ->
  (exists row,
     transactions db' = (transactions db ++ [row])%list /\
     history u db' = (history u db ++ [row])%list) /\
  (forall u', u' <> u -> history u' db' = history u' db).
Proof.
  intros Hrun Hu.
  destruct (execute_trade_ok f req db db' np Hrun)
    as (a & u0 & p & m & ppp & o & db1 & _ & Eu & _ & _ & _ & _ & _ & _ & _ & Hw & Hrec).
  rewrite Hu in Eu. injection Eu as <-.
  apply write_ownership_done in Hw. apply record_done in Hrec.
  destruct Hrec as (-> & Htype & _). subst db1.
  cbn [transaction_type trade_record] in Htype.
  assert (Hparties :
            (buyer_id (trade_record a u p m ppp) = Some u
             /\ seller_id (trade_record a u p m ppp) = None) \/
            (buyer_id (trade_record a u p m ppp) = None
             /\ seller_id (trade_record a u p m ppp) = Some u)).
  { unfold check_type in Htype. apply orb_true_iff in Htype.
    destruct Htype as [E|E]; apply String.eqb_eq in E; subst m; [left|right];
      split; reflexivity. }
  split.
  - exists (trade_record a u p m ppp). split; [reflexivity|].
    unfold history. cbn [transactions with_transactions with_user_assets].
    rewrite filter_app. cbn [filter].
    destruct Hparties as [[-> ->] | [-> ->]]; rewrite party_same;
      rewrite ?orb_true_r; reflexivity.
  - intros u' Hne. unfold history.
    cbn [transactions with_transactions with_user_assets].
    rewrite filter_app. cbn [filter].
    destruct Hparties as [[-> ->] | [-> ->]]; rewrite (party_other u u' Hne);
      cbn [party orb]; apply app_nil_r.
Qed.

End History.

Lemma history_gains_own_trade_witness :
  Client.history "bob"
    (snd (execute_trade no_faults (request "buy" 30 150) sample_db))
  = Client.history "bob" sample_db.
Proof.
  apply (proj2 (history_gains_own_trade no_faults (request "buy" 30 150) sample_db
                  (snd (execute_trade no_faults (request "buy" 30 150) sample_db))
                  (of_Z 30) "alice" eq_refl eq_refl)).
  discriminate.
Defined.

Section Portfolio.

Import Client.

Lemma totalValue_from (userAssets : list UserAsset) (t : Q) :
  Forall sound_holding userAssets -> (0 <= t)%Q ->
  exists v,
    fold_left (fun sum ua => (sum + ownership_percent ua * price_per_percent (asset ua))%num)
      userAssets (Fin t) = Fin v /\ (t <= v)%Q.
Proof.
  intros Hall. revert t. induction Hall as [|ua l Hua _ IH]; intros t Ht.
  - exists t. split; [reflexivity | lra].
  - destruct Hua as (p & k & x & Hp & Hp0 & Hp100 & _ & _ & Hx & Hx0).
    cbn [fold_left]. rewrite Hp, Hx. cbn [mul add].
    assert (Hpx : (0 <= p * x)%Q) by (apply Qmult_le_0_compat; lra).
    destruct (IH (Qred (t + Qred (p * x)))) as (v & Hv & Hle).
    + rewrite !Qred_correct. lra.
    + exists v. split; [exact Hv|]. rewrite !Qred_correct in Hle. lra.
Qed.


End Portfolio.


(** * Further properties of the analyzer *)

Section Files.

Import Csv.

Variable Date_parse : string -> Date.
Variable tz : Z -> Z.
Variable json : Type.
Variable JSON_parse : string -> string + json.

Lemma split_none (sep : ascii) (s : string) :
  has_char sep s = false -> split sep s = [s].
Proof.
  induction s as [|c s IH]; simpl; intros H; [reflexivity|].
  apply orb_false_iff in H. destruct H as [Hc Hs]. rewrite Hc, (IH Hs). reflexivity.
Qed.

Lemma split_at (sep : ascii) (s t : string) :
  has_char sep s = false -> split sep (s ++ String sep t) = s :: split sep t.
Proof.
  induction s as [|c s IH]; simpl; intros H.
  - rewrite Ascii.eqb_refl. reflexivity.
  - apply orb_false_iff in H. destruct H as [Hc Hs]. rewrite Hc, (IH Hs). reflexivity.
Qed.

Lemma append_empty (s : string) : s ++ "" = s.
Proof. induction s as [|c s IH]; simpl; [reflexivity|]. rewrite IH. reflexivity. Qed.

(** X16.  A file without data rows is rejected before anything else
    happens: when the trimmed content has no line break (it is empty or a
    header alone), [parseCSV] gives no sample and the handler answers with
    status 500 and [No data to analyze], whether or not an API key is
    configured and whatever the gateway would answer. *)
Theorem file_without_rows_rejected (content : string) (key : option string)
    (gateway : string + GatewayReply) :
  content <> "" -> has_char newline (trim content) = false ->
  parseCSV Date_parse content = [] /\
  serve Date_parse tz JSON_parse (Some content) key gateway
  = respond 500 (Failure "No data to analyze").
Proof.
  intros Hne Hlines.
  assert (Hparse : parseCSV Date_parse content = []).
  { unfold parseCSV. rewrite (split_none newline _ Hlines). reflexivity. }
  split; [exact Hparse|].
  unfold serve. rewrite (truthy_given content Hne), Hparse. reflexivity.
Qed.

Lemma field_ok_inv (s : string) :
  field_ok s = true ->
  String.eqb s "" = false /\ has_char comma s = false /\ has_char newline s = false.
Proof.
  unfold field_ok. intros H.
  apply andb_true_iff in H. destruct H as [H H3].
  apply andb_true_iff in H. destruct H as [H1 H2].
  apply negb_true_iff in H1, H2, H3. auto.
Qed.

Lemma row_ok_inv (r : string * string) :
  row_ok r = true -> field_ok (fst r) = true /\ field_ok (snd r) = true.
Proof. unfold row_ok. intros H. apply andb_true_iff in H. exact H. Qed.

Lemma row_text_line (r : string * string) :
  row_ok r = true -> has_char newline (row_text r) = false.
Proof.
  intros H. destruct (row_ok_inv r H) as [H1 H2].
  destruct (field_ok_inv _ H1) as (_ & _ & Hn1).
  destruct (field_ok_inv _ H2) as (_ & _ & Hn2).
  unfold row_text. rewrite has_char_append. simpl. rewrite Hn1, Hn2. reflexivity.
Qed.

Lemma split_lines (rows : list (string * string)) :
  forall s,
  has_char newline s = false -> forallb row_ok rows = true ->
  split newline (s ++ rows_text rows) = s :: map row_text rows.
Proof.
  induction rows as [|r rows IH]; intros s Hs Hrows; cbn [rows_text map].
  - rewrite append_empty. apply split_none. exact Hs.
  - cbn [forallb] in Hrows. apply andb_true_iff in Hrows. destruct Hrows as [Hr Hrows].
    rewrite (split_at newline s _ Hs). f_equal.
    apply IH; [apply row_text_line; exact Hr | exact Hrows].
Qed.

Lemma parse_row_text (r : string * string) :
  row_ok r = true ->
  parse_row Date_parse (row_text r)
  = [{| timestamp := Date_parse (fst r); value := parseFloat (snd r) |}].
Proof.
  intros H. destruct (row_ok_inv r H) as [H1 H2].
  destruct (field_ok_inv _ H1) as (He1 & Hc1 & _).
  destruct (field_ok_inv _ H2) as (He2 & Hc2 & _).
  unfold row_text, parse_row.
  destruct (split_fields (fst r) (snd r) Hc1) as (rest & -> & Hrest).
  rewrite (split_field (snd r) Hc2) in Hrest.
  destruct rest as [|v rest]; simpl in Hrest.
  - rewrite <- Hrest in He2. discriminate.
  - subst v. unfold Ledger.truthy_string. rewrite He1, He2. reflexivity.
Qed.

(** X17.  Reading back a file.  For a file made of a header line and of rows
    whose two fields are not empty and hold no comma and no line break, with
    no white space before the header or after the last row, [parseCSV] gives
    one sample per row, in the order of the rows: the date of the first
    field and [parseFloat] of the second. *)
Theorem parseCSV_reads_rows (header : string) (rows : list (string * string)) :
  has_char newline header = false -> forallb row_ok rows = true ->
  trim (csv_text header rows) = csv_text header rows ->
  parseCSV Date_parse (csv_text header rows)
  = map (fun r => {| timestamp := Date_parse (fst r); value := parseFloat (snd r) |}) rows.
Proof.
  intros Hheader Hrows Htrim. unfold parseCSV. rewrite Htrim. unfold csv_text.
  rewrite (split_lines rows header Hheader Hrows). cbn [tl]. clear Htrim.
  induction rows as [|r rows IH]; [reflexivity|].
  cbn [forallb] in Hrows. apply andb_true_iff in Hrows. destruct Hrows as [Hr Hrows].
  cbn [map flat_map]. rewrite (parse_row_text r Hr). cbn [app]. f_equal.
  apply IH. exact Hrows.
Qed.

End Files.

Lemma file_without_rows_rejected_witness :
  serve (fun _ => None) utc (fun _ : string => @inr string unit tt)
    (Some "timestamp,value") None (inl "unreachable")
  = respond 500 (Failure "No data to analyze").
Proof.
  apply (file_without_rows_rejected (fun _ => None) utc unit (fun _ => inr tt)
           "timestamp,value" None (inl "unreachable")).
  - discriminate.
  - reflexivity.
Defined.

Lemma parseCSV_reads_rows_witness :
  parseCSV (fun _ => Some 0%Z)
    (Csv.csv_text "timestamp,value"
       [("2024-01-01 00:00:00", "10"); ("2024-01-01 00:15:00", "12.5")])
  = [{| timestamp := Some 0%Z; value := of_Z 10 |};
     {| timestamp := Some 0%Z; value := Fin (25 # 2) |}].
Proof.
  apply (parseCSV_reads_rows (fun _ => Some 0%Z) "timestamp,value"
           [("2024-01-01 00:00:00", "10"); ("2024-01-01 00:15:00", "12.5")]);
    reflexivity.
Defined.

Section Statistics.

Variable tz : Z -> Z.

Lemma leb_ninf (x : number) : (x <=? NInf)%num = true -> x = NInf.
Proof. destruct x; simpl; intros H; try discriminate; reflexivity. Qed.

(** X18.  The peak load of a series without NaN is one of its values and is
    at least each of them. *)
Theorem peak_is_largest (data : list LoadCurveData) (r : Analysis) :
  analyzeLoadCurve tz data = inr r ->
  (forall d, In d data -> is_nan (value d) = false) ->
  In (peakLoad r) (map value data) /\
  forall d, In d data -> (value d <=? peakLoad r)%num = true.
Proof.
  intros Hrun Hnan.
  destruct data as [|first rest]; [discriminate|].
  unfold analyzeLoadCurve in Hrun. injection Hrun as <-. cbn [peakLoad].
  set (values := map value (first :: rest)).
  assert (Hnone : existsb is_nan (NInf :: values) = false).
  { cbn [existsb is_nan orb]. apply not_true_is_false. intros H.
    apply existsb_exists in H. destruct H as (x & Hx & Hxn).
    apply in_map_iff in Hx. destruct Hx as (d & <- & Hd).
    rewrite (Hnan d Hd) in Hxn. discriminate. }
  destruct (fold_max_bounds values NInf Hnone) as [Hin Hub].
  fold (math_max values) in Hin, Hub.
  assert (Hle : forall d, In d (first :: rest) -> (value d <=? math_max values)%num = true).
  { intros d Hd. apply Hub. right. apply in_map. exact Hd. }
  split; [|exact Hle].
  destruct Hin as [Hin|Hin]; [|exact Hin].
  change (In (math_max values) values).
  rewrite <- Hin. specialize (Hle first (or_introl eq_refl)). rewrite <- Hin in Hle.
  apply leb_ninf in Hle. rewrite <- Hle. left. reflexivity.
Qed.

(** X19.  The analyzer does not sort the samples: when the last sample is
    earlier than the first and the total is positive, the day span is
    negative and the average daily consumption the analysis returns is a
    negative number. *)
Theorem descending_series_negative_average (first : LoadCurveData)
    (rest : list LoadCurveData) (t1 t2 : Z) (t : Q) :
  timestamp first = Some t1 -> timestamp (last (first :: rest) first) = Some t2 ->
  (t2 < t1)%Z -> total_of (first :: rest) = Fin t -> (0 < t)%Q ->
  exists r x,
    analyzeLoadCurve tz (first :: rest) = inr r /\
    avgDailyConsumption r = Fin x /\ (x < 0)%Q.
Proof.
  intros Hfirst Hlast Hlt Htotal Ht.
  assert (Hrun : exists r,
             analyzeLoadCurve tz (first :: rest) = inr r /\
             avgDailyConsumption r
             = (total_of (first :: rest)
                / days_diff (timestamp first) (timestamp (last (first :: rest) first)))%num).
  { eexists. split; reflexivity. }
  destruct Hrun as (r & Hrun & Havg). exists r. rewrite Havg. clear Havg.
  rewrite Htotal, Hfirst, Hlast. unfold days_diff, getTime, of_Z. cbn [sub div].
  change (Qeq_bool (inject_Z (1000 * 60 * 60 * 24)) 0) with false. cbv iota.
  remember (Qred (Qred (inject_Z t2 - inject_Z t1) / inject_Z (1000 * 60 * 60 * 24)))
    as d eqn:Ed.
  assert (Hd : (d < 0)%Q).
  { rewrite Ed. rewrite !Qred_correct.
    assert (H : (inject_Z t2 - inject_Z t1 < 0)%Q).
    { assert (inject_Z t2 < inject_Z t1)%Q by (rewrite <- Zlt_Qlt; exact Hlt). lra. }
    change (inject_Z (1000 * 60 * 60 * 24)) with 86400000%Q.
    assert (E : ((inject_Z t2 - inject_Z t1) / 86400000
                 == - ((inject_Z t1 - inject_Z t2) / 86400000))%Q) by field.
    assert (0 < (inject_Z t1 - inject_Z t2) / 86400000)%Q
      by (apply Qlt_shift_div_l; lra).
    lra. }
  assert (Hd0 : Qeq_bool d 0 = false) by (apply Qeq_bool_false; lra).
  rewrite Hd0. eexists. split; [exact Hrun|]. split; [reflexivity|].
  rewrite Qred_correct.
  assert (E : (t / d == - (t / (- d)))%Q) by (field; lra).
  assert (Hpos : (0 < t / (- d))%Q) by (apply Qlt_shift_div_l; lra).
  revert E Hpos. generalize (t / d)%Q (t / - d)%Q. intros y z E Hpos. lra.
Qed.

Lemma zero_totals (data : list LoadCurveData) :
  Forall (fun d => value d = zero) data ->
  total_of data = zero /\ time_slots tz data = empty_slots.
Proof.
  intros H. unfold total_of, time_slots. split.
  - induction H as [|d data Hd _ IH]; [reflexivity|]. cbn [fold_left]. rewrite Hd. exact IH.
  - induction H as [|d data Hd _ IH]; [reflexivity|]. cbn [fold_left].
    assert (add_sample tz empty_slots d = empty_slots) as ->; [|exact IH].
    unfold add_sample. rewrite Hd.
    destruct ((getHours tz (timestamp d) >=? zero)%num
              && (getHours tz (timestamp d) <? of_Z 6)%num); [reflexivity|].
    destruct ((getHours tz (timestamp d) >=? of_Z 6)%num
              && (getHours tz (timestamp d) <? of_Z 12)%num); [reflexivity|].
    destruct ((getHours tz (timestamp d) >=? of_Z 12)%num
              && (getHours tz (timestamp d) <? of_Z 18)%num); reflexivity.
Qed.

Lemma zero_peak (data : list LoadCurveData) (acc : number) :
  Forall (fun d => value d = zero) data -> acc = zero \/ (acc = NInf /\ data <> []) ->
  fold_left max2 (map value data) acc = zero.
Proof.
  intros H. revert acc. induction H as [|d data Hd _ IH]; intros acc Hacc.
  - destruct Hacc as [-> | [_ Hne]]; [reflexivity | contradiction].
  - cbn [map fold_left]. rewrite Hd. apply IH. left.
    destruct Hacc as [-> | [-> _]]; reflexivity.
Qed.

(** X20.  A series whose values are all zero is analysed without an error:
    the total and the peak are zero, the division by the total makes each of
    the four shares NaN, and the pattern is mixed. *)
Theorem all_zero_series (first : LoadCurveData) (rest : list LoadCurveData) :
  Forall (fun d => value d = zero) (first :: rest) ->
  exists r,
    analyzeLoadCurve tz (first :: rest) = inr r /\
    totalConsumption r = zero /\ peakLoad r = zero /\
    timeOfDay r = {| night := NaN; morning := NaN; afternoon := NaN; evening := NaN |} /\
    pattern r = "mixed".
Proof.
  intros H. destruct (zero_totals _ H) as [Htotal Hslots].
  eexists. split; [reflexivity|].
  cbn [totalConsumption peakLoad timeOfDay pattern]. rewrite Htotal, Hslots.
  split; [reflexivity|]. split; [|split; reflexivity].
  apply zero_peak; [exact H|]. right. split; [reflexivity | discriminate].
Qed.

Lemma fold_add_perm (xs ys : list number) :
  Permutation xs ys ->
  forall acc acc', equiv acc acc' ->
  equiv (fold_left add xs acc) (fold_left add ys acc').
Proof.
  induction 1 as [|x xs ys _ IH|x y xs|xs ys zs _ IH1 _ IH2]; intros acc acc' Hacc.
  - exact Hacc.
  - cbn [fold_left]. apply IH. rewrite Hacc. reflexivity.
  - cbn [fold_left].
    assert (E : equiv (acc + y + x) (acc' + x + y)).
    { rewrite Hacc. apply add_shuffle. }
    revert E. generalize (acc + y + x)%num (acc' + x + y)%num.
    induction xs as [|z xs IHxs]; intros b b' E; [exact E|].
    cbn [fold_left]. apply IHxs. rewrite E. reflexivity.
  - apply (equiv_trans _ (fold_left add ys acc)); [apply IH1; reflexivity | apply IH2; exact Hacc].
Qed.

Lemma total_of_values (data : list LoadCurveData) (acc : number) :
  fold_left (fun sum d => (sum + value d)%num) data acc
  = fold_left add (map value data) acc.
Proof.
  revert acc. induction data as [|d data IH]; intros acc; [reflexivity|]. apply IH.
Qed.

Lemma total_of_perm (data data' : list LoadCurveData) :
  Permutation data data' -> total_of data = total_of data'.
Proof.
  intros H. apply canonical_eq; try apply total_canonical.
  unfold total_of. rewrite !total_of_values.
  apply fold_add_perm; [apply Permutation_map; exact H | reflexivity].
Qed.

Lemma filter_perm (g : LoadCurveData -> bool) (data data' : list LoadCurveData) :
  Permutation data data' -> Permutation (filter g data) (filter g data').
Proof.
  induction 1 as [|x xs ys _ IH|x y xs|xs ys zs _ IH1 _ IH2]; simpl.
  - constructor.
  - destruct (g x); [constructor|]; exact IH.
  - destruct (g x), (g y); try apply Permutation_refl. constructor.
  - exact (Permutation_trans IH1 IH2).
Qed.

Lemma slots_ext (s s' : TimeSlots) :
  (forall b, get_slot b s = get_slot b s') -> s = s'.
Proof.
  intros H. destruct s, s'.
  pose proof (H Night) as Hn. pose proof (H Morning) as Hm.
  pose proof (H Afternoon) as Ha. pose proof (H Evening) as He.
  simpl in *. congruence.
Qed.

Lemma time_slots_perm (data data' : list LoadCurveData) :
  Permutation data data' -> time_slots tz data = time_slots tz data'.
Proof.
  intros H. apply slots_ext. intros b. unfold time_slots. rewrite !fold_slot.
  assert (E : get_slot b empty_slots = zero) by (destruct b; reflexivity).
  rewrite E. apply (total_of_perm _ _ (filter_perm (in_slot tz b) _ _ H)).
Qed.


End Statistics.

Lemma peak_is_largest_witness :
  In (of_Z 7) (map value [at_hour 2 (of_Z 1); at_hour 9 (of_Z 7); at_hour 20 (of_Z 5)]) /\
  forall d, In d [at_hour 2 (of_Z 1); at_hour 9 (of_Z 7); at_hour 20 (of_Z 5)] ->
            (value d <=? of_Z 7)%num = true.
Proof.
  refine (peak_is_largest utc
            [at_hour 2 (of_Z 1); at_hour 9 (of_Z 7); at_hour 20 (of_Z 5)] _ eq_refl _).
  intros d [<-|[<-|[<-|[]]]]; reflexivity.
Defined.

Lemma descending_series_negative_average_witness :
  exists r x,
    analyzeLoadCurve utc [at_hour 13 (of_Z 5); at_hour 2 (of_Z 1)] = inr r /\
    avgDailyConsumption r = Fin x /\ (x < 0)%Q.
Proof.
  apply (descending_series_negative_average utc (at_hour 13 (of_Z 5))
           [at_hour 2 (of_Z 1)] 46800000 7200000 6).
  - reflexivity.
  - reflexivity.
  - lia.
  - reflexivity.
  - reflexivity.
Defined.

Lemma all_zero_series_witness :
  exists r,
    analyzeLoadCurve utc [at_hour 2 zero; at_hour 9 zero] = inr r /\
    totalConsumption r = zero /\ peakLoad r = zero /\
    timeOfDay r = {| night := NaN; morning := NaN; afternoon := NaN; evening := NaN |} /\
    pattern r = "mixed".
Proof.
  apply (all_zero_series utc (at_hour 2 zero) [at_hour 9 zero]).
  repeat constructor.
Defined.


(** * The two handlers of the analysis *)

Section Handlers.

Variable Date_parse : string -> Date.
Variable tz : Z -> Z.
Variable json : Type.
Variable JSON_parse : string -> string + json.

Lemma extract_without_analysis (analysis : Analysis) (aiResponse : string) :
  Forward.without_analysis (extract JSON_parse analysis aiResponse)
  = Forward.extract JSON_parse aiResponse.
Proof.
  unfold extract, Forward.extract.
  destruct (json_match aiResponse) as [m|]; [|reflexivity].
  destruct (JSON_parse m); reflexivity.
Qed.


(** X23.  For a file from which at least one row is read, the handler that
    forwards the file answers, to the same key and the same behaviour of the
    gateway, what the analysing handler answers without the [analysis]
    field. *)
Theorem handlers_agree_on_files_with_rows (c : string) (key : option string)
    (gateway : string + GatewayReply) :
  parseCSV Date_parse c <> [] ->
  Forward.serve JSON_parse (Some c) key gateway
  = Forward.without_analysis (serve Date_parse tz JSON_parse (Some c) key gateway).
Proof.
  intros Hrows. unfold serve, Forward.serve.
  destruct (negb (Ledger.truthy_string c)); [reflexivity|].
  destruct (parseCSV Date_parse c) as [|first rest]; [congruence|].
  cbn [analyzeLoadCurve].
  destruct key as [k|]; [|reflexivity].
  destruct (negb (Ledger.truthy_string k)); [reflexivity|].
  destruct gateway as [|reply]; [reflexivity|].
  destruct (negb ((200 <=? status reply)%nat && (status reply <=? 299)%nat)).
  { destruct (status reply =? 429)%nat; [reflexivity|].
    destruct (status reply =? 402)%nat; reflexivity. }
  destruct (content reply) as [|[ai|]]; try reflexivity.
  destruct (negb (Ledger.truthy_string ai)); [reflexivity|].
  symmetry. apply extract_without_analysis.
Qed.


End Handlers.


Lemma handlers_agree_on_files_with_rows_witness :
  Forward.serve (fun s : string => @inr string string s) (Some single_row_csv)
    (Some "key") (inr {| status := 429; content := inr None |})
  = Forward.without_analysis
      (serve (fun _ => Some 0%Z) utc (fun s : string => @inr string string s)
         (Some single_row_csv) (Some "key")
         (inr {| status := 429; content := inr None |})).
Proof.
  apply (handlers_agree_on_files_with_rows (fun _ => Some 0%Z) utc string
           (fun s => inr s) single_row_csv (Some "key")
           (inr {| status := 429; content := inr None |})).
  intros H. vm_compute in H. discriminate H.
Defined.

